(** * discovery_demo_sim: the orchestrator's metrics reducer, clock and snapshots

    A shallow embedding of [discovery_demo_sim.py].  Python floats are IEEE
    binary64 numbers, modelled by the Standard Library's executable
    specification [SpecFloat] at precision 53; Python ints are [Z]; event
    payloads are JSON values in a [gmap] keyed by strings; the live metrics
    dict and its snapshot copies are objects in a store, so that aliasing
    is visible; [json.dumps] raises where the interpreter's limit on the
    digits of an int or its recursion limit is exceeded. *)

From Stdlib Require Import ZArith QArith Lia Lqa List String.
From Stdlib Require Import Floats.SpecFloat.
From stdpp Require Import gmap strings.

Local Open Scope Z_scope.
Local Open Scope string_scope.
Local Open Scope list_scope.

(** ** Extended rationals: the exact value of a Python number *)

Module XReal.

Inductive xreal : Type :=
| XNaN
| XInf (neg : bool)
| XFin (q : Q).

(** IEEE comparison: unordered as soon as one side is NaN. *)
Definition compare (x y : xreal) : option comparison :=
  match x, y with
  | XNaN, _ | _, XNaN => None
  | XInf a, XInf b =>
      Some (match a, b with
            | true, false => Lt
            | false, true => Gt
            | _, _ => Eq
            end)
  | XInf a, XFin _ => Some (if a then Lt else Gt)
  | XFin _, XInf b => Some (if b then Gt else Lt)
  | XFin p, XFin q => Some (Qcompare p q)
  end.

Definition ltb (x y : xreal) : bool :=
  match compare x y with Some Lt => true | _ => false end.

Definition gtb (x y : xreal) : bool :=
  match compare x y with Some Gt => true | _ => false end.

Definition leb (x y : xreal) : bool :=
  match compare x y with Some Lt | Some Eq => true | _ => false end.

Definition geb (x y : xreal) : bool :=
  match compare x y with Some Gt | Some Eq => true | _ => false end.

Definition eqb (x y : xreal) : bool :=
  match compare x y with Some Eq => true | _ => false end.

Definition is_nan (x : xreal) : bool :=
  match x with XNaN => true | _ => false end.

End XReal.

(** ** binary64 *)

Module F64.

Definition prec : Z := 53.
Definition emax : Z := 1024.

Abbreviation float64 := spec_float.

Definition of_Z (z : Z) : float64 := binary_normalize prec emax z 0 false.
Definition add : float64 -> float64 -> float64 := SFadd prec emax.
Definition div : float64 -> float64 -> float64 := SFdiv prec emax.

(** The float literal written [n]e-[k] in decimal: the correctly rounded
    quotient of two integers that binary64 holds exactly. *)
Definition dec (n : Z) (k : Z) : float64 := div (of_Z n) (of_Z (10 ^ k)).

(** [m * 2^e] as a rational. *)
Definition dyadic (m e : Z) : Q :=
  match e with
  | Z0 => inject_Z m
  | Zpos p => inject_Z (m * 2 ^ Zpos p)
  | Zneg p => Qmake m (2 ^ p)
  end.

Definition to_x (f : float64) : XReal.xreal :=
  match f with
  | S754_zero _ => XReal.XFin 0
  | S754_infinity s => XReal.XInf s
  | S754_nan => XReal.XNaN
  | S754_finite s m e => XReal.XFin (dyadic (cond_Zopp s (Zpos m)) e)
  end.

Definition ltb (a b : float64) : bool := XReal.ltb (to_x a) (to_x b).
Definition leb (a b : float64) : bool := XReal.leb (to_x a) (to_x b).
Definition geb (a b : float64) : bool := XReal.geb (to_x a) (to_x b).
Definition eqb (a b : float64) : bool := XReal.eqb (to_x a) (to_x b).

#[global] Instance float64_eq_dec : EqDecision float64.
Proof. solve_decision. Defined.

End F64.

Export F64(float64).

(** ** Python values *)

(** JSON values, as event payloads carry them. *)
#[warnings="-register-all"]
Inductive value : Type :=
| VNone
| VBool (b : bool)
| VInt (z : Z)
| VFloat (f : float64)
| VStr (s : string)
| VList (l : list value)
| VDict (d : list (string * value)).

(** The values Python orders against a float: bool, int and float. *)
Inductive num : Type :=
| NBool (b : bool)
| NInt (z : Z)
| NFloat (f : float64).

Definition num_x (n : num) : XReal.xreal :=
  match n with
  | NBool b => XReal.XFin (inject_Z (if b then 1 else 0))
  | NInt z => XReal.XFin (inject_Z z)
  | NFloat f => F64.to_x f
  end.

Definition as_num (v : value) : option num :=
  match v with
  | VBool b => Some (NBool b)
  | VInt z => Some (NInt z)
  | VFloat f => Some (NFloat f)
  | _ => None
  end.

Definition of_num (n : num) : value :=
  match n with
  | NBool b => VBool b
  | NInt z => VInt z
  | NFloat f => VFloat f
  end.

Definition num_ltb (a b : num) : bool := XReal.ltb (num_x a) (num_x b).
Definition num_gtb (a b : num) : bool := XReal.gtb (num_x a) (num_x b).
Definition num_leb (a b : num) : bool := XReal.leb (num_x a) (num_x b).
Definition num_eqb (a b : num) : bool := XReal.eqb (num_x a) (num_x b).

(** Exceptions and results. *)
Inductive exn : Type :=
| TypeError
| ValueError
| RecursionError.

Inductive result (A : Type) : Type :=
| Ok (a : A)
| Raise (e : exn).
Arguments Ok {A} a.
Arguments Raise {A} e.

Definition bind {A B : Type} (r : result A) (k : A -> result B) : result B :=
  match r with
  | Ok a => k a
  | Raise e => Raise e
  end.

Notation "x <- r ;; k" := (bind r (fun x => k))
  (at level 100, r at next level, right associativity).

(** [min(a, b)] on two floats: the second argument replaces the first only
    when it compares strictly below it. *)
Definition py_min (a b : float64) : float64 :=
  if F64.ltb b a then b else a.

(** [max(a, b)] with [a] a number and [b] any value: [b > a] raises
    TypeError for a [b] that is not a number. *)
Definition py_max (a : num) (b : value) : result num :=
  match as_num b with
  | Some n => Ok (if num_gtb n a then n else a)
  | None => Raise TypeError
  end.

(** ** Events and metrics *)

Record event : Type := {
  event_type : string;
  data : gmap string value;
  ts : string
}.

Record Metrics : Type := {
  processes : Z;
  requirements : Z;
  risks : Z;
  estimate_total : value;
  estimate_confidence : value;
  data_quality_score : num;
  process_coverage : float64;
  requirements_complete : float64;
  fsd_completeness : float64;
  agent_idle_percentage : float64
}.

(** [Orchestrator.__init__], the metrics dict. *)
Definition initial_metrics : Metrics := {|
  processes := 0;
  requirements := 0;
  risks := 0;
  estimate_total := VFloat (F64.dec 0 1);
  estimate_confidence := VFloat (F64.dec 2 1);
  data_quality_score := NFloat (F64.dec 2 1);
  process_coverage := F64.dec 5 2;
  requirements_complete := F64.dec 5 2;
  fsd_completeness := F64.dec 5 2;
  agent_idle_percentage := F64.dec 0 1
|}.

(** The dict that [json.dumps] sees. *)
Definition to_dict (m : Metrics) : gmap string value :=
  <["processes" := VInt (processes m)]>
  (<["requirements" := VInt (requirements m)]>
  (<["risks" := VInt (risks m)]>
  (<["estimate_total" := estimate_total m]>
  (<["estimate_confidence" := estimate_confidence m]>
  (<["data_quality_score" := of_num (data_quality_score m)]>
  (<["process_coverage" := VFloat (process_coverage m)]>
  (<["requirements_complete" := VFloat (requirements_complete m)]>
  (<["fsd_completeness" := VFloat (fsd_completeness m)]>
  (<["agent_idle_percentage" := VFloat (agent_idle_percentage m)]> ∅))))))))).

(** Item assignment [metrics[key] = v], one function per key. *)
Definition set_processes (v : Z) (m : Metrics) : Metrics :=
  {| processes := v; requirements := requirements m; risks := risks m;
     estimate_total := estimate_total m;
     estimate_confidence := estimate_confidence m;
     data_quality_score := data_quality_score m;
     process_coverage := process_coverage m;
     requirements_complete := requirements_complete m;
     fsd_completeness := fsd_completeness m;
     agent_idle_percentage := agent_idle_percentage m |}.

Definition set_requirements (v : Z) (m : Metrics) : Metrics :=
  {| processes := processes m; requirements := v; risks := risks m;
     estimate_total := estimate_total m;
     estimate_confidence := estimate_confidence m;
     data_quality_score := data_quality_score m;
     process_coverage := process_coverage m;
     requirements_complete := requirements_complete m;
     fsd_completeness := fsd_completeness m;
     agent_idle_percentage := agent_idle_percentage m |}.

Definition set_risks (v : Z) (m : Metrics) : Metrics :=
  {| processes := processes m; requirements := requirements m; risks := v;
     estimate_total := estimate_total m;
     estimate_confidence := estimate_confidence m;
     data_quality_score := data_quality_score m;
     process_coverage := process_coverage m;
     requirements_complete := requirements_complete m;
     fsd_completeness := fsd_completeness m;
     agent_idle_percentage := agent_idle_percentage m |}.

Definition set_estimate_total (v : value) (m : Metrics) : Metrics :=
  {| processes := processes m; requirements := requirements m;
     risks := risks m;
     estimate_total := v;
     estimate_confidence := estimate_confidence m;
     data_quality_score := data_quality_score m;
     process_coverage := process_coverage m;
     requirements_complete := requirements_complete m;
     fsd_completeness := fsd_completeness m;
     agent_idle_percentage := agent_idle_percentage m |}.

Definition set_estimate_confidence (v : value) (m : Metrics) : Metrics :=
  {| processes := processes m; requirements := requirements m;
     risks := risks m;
     estimate_total := estimate_total m;
     estimate_confidence := v;
     data_quality_score := data_quality_score m;
     process_coverage := process_coverage m;
     requirements_complete := requirements_complete m;
     fsd_completeness := fsd_completeness m;
     agent_idle_percentage := agent_idle_percentage m |}.

Definition set_data_quality_score (v : num) (m : Metrics) : Metrics :=
  {| processes := processes m; requirements := requirements m;
     risks := risks m;
     estimate_total := estimate_total m;
     estimate_confidence := estimate_confidence m;
     data_quality_score := v;
     process_coverage := process_coverage m;
     requirements_complete := requirements_complete m;
     fsd_completeness := fsd_completeness m;
     agent_idle_percentage := agent_idle_percentage m |}.

Definition set_process_coverage (v : float64) (m : Metrics) : Metrics :=
  {| processes := processes m; requirements := requirements m;
     risks := risks m;
     estimate_total := estimate_total m;
     estimate_confidence := estimate_confidence m;
     data_quality_score := data_quality_score m;
     process_coverage := v;
     requirements_complete := requirements_complete m;
     fsd_completeness := fsd_completeness m;
     agent_idle_percentage := agent_idle_percentage m |}.

Definition set_requirements_complete (v : float64) (m : Metrics) : Metrics :=
  {| processes := processes m; requirements := requirements m;
     risks := risks m;
     estimate_total := estimate_total m;
     estimate_confidence := estimate_confidence m;
     data_quality_score := data_quality_score m;
     process_coverage := process_coverage m;
     requirements_complete := v;
     fsd_completeness := fsd_completeness m;
     agent_idle_percentage := agent_idle_percentage m |}.

Definition set_fsd_completeness (v : float64) (m : Metrics) : Metrics :=
  {| processes := processes m; requirements := requirements m;
     risks := risks m;
     estimate_total := estimate_total m;
     estimate_confidence := estimate_confidence m;
     data_quality_score := data_quality_score m;
     process_coverage := process_coverage m;
     requirements_complete := requirements_complete m;
     fsd_completeness := v;
     agent_idle_percentage := agent_idle_percentage m |}.

Definition set_agent_idle_percentage (v : float64) (m : Metrics) : Metrics :=
  {| processes := processes m; requirements := requirements m;
     risks := risks m;
     estimate_total := estimate_total m;
     estimate_confidence := estimate_confidence m;
     data_quality_score := data_quality_score m;
     process_coverage := process_coverage m;
     requirements_complete := requirements_complete m;
     fsd_completeness := fsd_completeness m;
     agent_idle_percentage := v |}.

(** ** The metrics reducer: the [if]/[elif] chain of [Orchestrator.pump] *)

Definition reduce (m : Metrics) (evt : event) : result Metrics :=
  let et := event_type evt in
  let d := data evt in
  if String.eqb et "process.discovered" then
    let m1 := set_processes (processes m + 1) m in
    Ok (set_process_coverage
          (py_min (F64.dec 95 2) (F64.add (process_coverage m1) (F64.dec 1 2)))
          m1)
  else if String.eqb et "requirement.identified" then
    let m1 := set_requirements (requirements m + 1) m in
    Ok (set_requirements_complete
          (py_min (F64.dec 95 2)
                  (F64.add (requirements_complete m1) (F64.dec 1 2)))
          m1)
  else if String.eqb et "risk.identified" then
    Ok (set_risks (risks m + 1) m)
  else if String.eqb et "estimate.updated" then
    let m1 :=
      set_estimate_total (default (estimate_total m) (d !! "total_hours")) m in
    Ok (set_estimate_confidence
          (default (estimate_confidence m1) (d !! "confidence")) m1)
  else if String.eqb et "data.quality.score" then
    s <- py_max (data_quality_score m)
                (default (VFloat (F64.dec 2 1)) (d !! "score")) ;;
    Ok (set_data_quality_score s m)
  else if String.eqb et "fsd.section_drafted" then
    Ok (set_fsd_completeness
          (py_min (F64.dec 98 2) (F64.add (fsd_completeness m) (F64.dec 2 2)))
          m)
  else Ok m.

(** The reducer over a sequence of events, stopping at the first exception. *)
Fixpoint run (m : Metrics) (evts : list event) : result Metrics :=
  match evts with
  | [] => Ok m
  | evt :: rest => m' <- reduce m evt ;; run m' rest
  end.

(** An event of [Bus.publish] with the given type and payload; the
    timestamp, which the orchestrator only writes to the log, is left empty. *)
Definition mk_event (etype : string) (payload : list (string * value))
    : event :=
  {| event_type := etype; data := list_to_map payload; ts := "" |}.

(** ** [json.dumps] and the limits of the interpreter *)

(** What [json.dumps] depends on besides its argument:
    [sys.get_int_max_str_digits()], which is 4300 unless the interpreter was
    started otherwise, at least 640 when it is set and 0 when there is no
    limit; and the number of nested lists and dicts the encoder can enter,
    when a task calls it, before the recursion limit is hit. *)
Record interp : Type := {
  int_max_str_digits : Z;
  recursion_room : nat
}.

(** An int whose decimal form has more digits than the limit: converting it
    to text raises ValueError. *)
Definition too_long (ip : interp) (z : Z) : bool :=
  Z.ltb 0 (int_max_str_digits ip)
  && Z.leb (10 ^ int_max_str_digits ip) (Z.abs z).

(** The encoder's walk over a value, in the order of its items: entering a
    list or a dict, empty or not, takes one level of recursion, and an int
    is converted to its decimal form.  Floats (NaN and the infinities
    included, [allow_nan] being on), strings, booleans and None always
    encode. *)
Fixpoint encode (ip : interp) (room : nat) (v : value) {struct v}
    : result unit :=
  match v with
  | VInt z => if too_long ip z then Raise ValueError else Ok tt
  | VList l =>
      match room with
      | O => Raise RecursionError
      | S room' =>
          (fix items (l : list value) : result unit :=
             match l with
             | [] => Ok tt
             | x :: rest => u <- encode ip room' x ;; items rest
             end) l
      end
  | VDict d =>
      match room with
      | O => Raise RecursionError
      | S room' =>
          (fix items (d : list (string * value)) : result unit :=
             match d with
             | [] => Ok tt
             | (_, x) :: rest => u <- encode ip room' x ;; items rest
             end) d
      end
  | _ => Ok tt
  end.

(** The walk over the items of a dict that has been entered. *)
Definition encode_items (ip : interp) (room : nat)
    : list (string * value) -> result unit :=
  fix items (d : list (string * value)) : result unit :=
    match d with
    | [] => Ok tt
    | (_, x) :: rest => u <- encode ip room x ;; items rest
    end.

(** The dict [Bus.publish] builds, as a value.  The payload's items come in
    the order of the map's keys where the dict has insertion order: the two
    orders can differ only in which of the two exceptions a payload with
    both faults raises, not in whether [json.dumps] raises. *)
Definition event_value (evt : event) : value :=
  VDict [ ("event_type", VStr (event_type evt));
          ("data", VDict (map_to_list (data evt)));
          ("ts", VStr (ts evt)) ].

(** [json.dumps(evt)]: the text is not modelled, only whether it is
    produced. *)
Definition json_dumps (ip : interp) (evt : event) : result unit :=
  encode ip (recursion_room ip) (event_value evt).

(** [json.dumps] accepts the event. *)
Definition writable (ip : interp) (evt : event) : Prop :=
  json_dumps ip evt = Ok tt.

(** A plan.updated event whose payload holds [10^4300], an int of 4301
    digits. *)
Definition oversized : event :=
  mk_event "plan.updated" [("duration_weeks", VInt (10 ^ 4300))].

(** An interpreter with the default limit on digits and room for 900
    nested containers, of the 1000 levels the default recursion limit
    allows: the one the properties below are instantiated at. *)
Definition sample_interp : interp :=
  {| int_max_str_digits := 4300; recursion_room := 900 |}.

(** ** The clock *)

Definition RUNTIME_SECONDS : Z := 30.

(** Instants and durations are counted in microseconds, the resolution of
    [datetime].  [timedelta.seconds] is the seconds component of the
    normalised (days, seconds, microseconds) triple, between 0 and 86399. *)
Definition td_seconds (elapsed_us : Z) : Z :=
  (elapsed_us / 1000000) mod 86400.

(** ** The orchestrator and the objects it owns *)

Abbreviation loc := nat (only parsing).

(** The in-memory [snap] dict of [dashboards]; its ["metrics"] entry is a
    reference to a dict object. *)
Record snap : Type := {
  snap_ts : Z;
  snap_day : Z;
  snap_hours_to_cutoff : float64;
  snap_metrics : loc
}.

(** One line of [dashboard_snapshots.jsonl]: what [json.dumps(snap)] read
    when it was written. *)
Record snapshot : Type := {
  line_ts : Z;
  line_day : Z;
  line_hours_to_cutoff : float64;
  line_metrics : Metrics
}.

Record orch : Type := {
  heap : gmap loc Metrics;      (* the dict objects *)
  metrics : loc;                (* self.metrics *)
  start : Z;                    (* self.start *)
  evlog : list event;           (* events.jsonl *)
  snaps : list snap;            (* the snap dicts built so far *)
  dlog : list snapshot          (* dashboard_snapshots.jsonl *)
}.

#[global] Instance Metrics_inhabited : Inhabited Metrics :=
  populate initial_metrics.

(** [Orchestrator(bus)] at instant [now]. *)
Definition orch_init (now : Z) : orch :=
  {| heap := {[ 0%nat := initial_metrics ]};
     metrics := 0%nat;
     start := now;
     evlog := [];
     snaps := [];
     dlog := [] |}.

(** The dict [self.metrics] refers to. *)
Definition live (o : orch) : Metrics := heap o !!! metrics o.

Definition set_heap (h : gmap loc Metrics) (o : orch) : orch :=
  {| heap := h; metrics := metrics o; start := start o; evlog := evlog o;
     snaps := snaps o; dlog := dlog o |}.

Definition write_evlog (evt : event) (o : orch) : orch :=
  {| heap := heap o; metrics := metrics o; start := start o;
     evlog := evlog o ++ [evt]; snaps := snaps o; dlog := dlog o |}.

Definition write_dlog (s : snap) (o : orch) : orch :=
  {| heap := heap o; metrics := metrics o; start := start o;
     evlog := evlog o;
     snaps := snaps o ++ [s];
     dlog := dlog o ++ [ {| line_ts := snap_ts s;
                            line_day := snap_day s;
                            line_hours_to_cutoff := snap_hours_to_cutoff s;
                            line_metrics := heap o !!! snap_metrics s |} ] |}.

(** [day()] at instant [now]. *)
Definition day (o : orch) (now : Z) : Z :=
  Z.min (td_seconds (now - start o) / 6 + 1) 5.

(** [hours_to_cutoff()] at instant [now].  [rem / 0.25] is four times an
    integer between 0 and 27, which [round(_, 2)] returns as it is. *)
Definition hours_to_cutoff (o : orch) (now : Z) : float64 :=
  let elapsed := td_seconds (now - start o) in
  let total := 4 * 6 + 3 in
  let rem := Z.max 0 (total - elapsed) in
  F64.div (F64.of_Z rem) (F64.dec 25 2).

(** The body of the [pump] loop for a received event: render the line,
    write it, then update the metrics dict in place. *)
Definition pump_body (ip : interp) (o : orch) (evt : event) : result orch :=
  u <- json_dumps ip evt ;;
  let o1 := write_evlog evt o in
  m' <- reduce (live o1) evt ;;
  Ok (set_heap (<[metrics o1 := m']> (heap o1)) o1).

(** What one [wait_for(self.bus.get(), timeout=0.2)] brings: an event, or
    a timeout, after which the clock reads [now]. *)
Inductive poll : Type :=
| Received (evt : event)
| TimedOut (now : Z).

Inductive outcome : Type :=
| Running (o : orch)             (* still polling *)
| Stopped (o : orch)             (* left the loop through [break] *)
| Raised (e : exn) (o : orch).   (* an exception left the loop *)

(** [Orchestrator.pump] against the polls its environment delivers. *)
Fixpoint pump (ip : interp) (o : orch) (polls : list poll) : outcome :=
  match polls with
  | [] => Running o
  | TimedOut now :: rest =>
      if td_seconds (now - start o) >? RUNTIME_SECONDS then Stopped o
      else pump ip o rest
  | Received evt :: rest =>
      match pump_body ip o evt with
      | Ok o' => pump ip o' rest
      | Raise e =>
          (* the line is in the log once [json.dumps] has returned *)
          Raised e (match json_dumps ip evt with
                    | Ok _ => write_evlog evt o
                    | Raise _ => o
                    end)
      end
  end.

(** The idle percentage from the agents' mean completeness. *)
Definition idle_percentage (avg_comp : float64) : float64 :=
  if F64.geb avg_comp (F64.dec 75 2) then F64.dec 35 2
  else if F64.geb avg_comp (F64.dec 5 1) then F64.dec 15 2
  else F64.dec 5 2.

(** [dict.copy()]: a new dict object with the same items. *)
Definition dict_copy (l : loc) (h : gmap loc Metrics)
    : loc * gmap loc Metrics :=
  let l' := fresh (dom h) in
  (l', <[l' := h !!! l]> h).

(** The body of the [dashboards] loop when a snapshot is due, at instant
    [now]; [avg_comp] is the mean completeness read from the agents. *)
Definition dashboards_body (o : orch) (now : Z) (avg_comp : float64) : orch :=
  let m := set_agent_idle_percentage (idle_percentage avg_comp) (live o) in
  let o1 := set_heap (<[metrics o := m]> (heap o)) o in
  let '(l, h) := dict_copy (metrics o1) (heap o1) in
  let o2 := set_heap h o1 in
  let s := {| snap_ts := now;
              snap_day := day o2 now;
              snap_hours_to_cutoff := hours_to_cutoff o2 now;
              snap_metrics := l |} in
  write_dlog s o2.

(** One step of the orchestrator's two tasks. *)
Inductive step (ip : interp) : orch -> orch -> Prop :=
| step_pump o evt o' :
    pump_body ip o evt = Ok o' -> step ip o o'
| step_dashboards o now avg_comp :
    step ip o (dashboards_body o now avg_comp).

Inductive steps (ip : interp) : orch -> orch -> Prop :=
| steps_refl o : steps ip o o
| steps_cons o1 o2 o3 : step ip o1 o2 -> steps ip o2 o3 -> steps ip o1 o3.

Arguments step_pump {ip} o evt o' _.
Arguments step_dashboards {ip} o now avg_comp.
Arguments steps_refl {ip} o.
Arguments steps_cons {ip} o1 o2 o3 _ _.

(** ** Vocabulary of rounding *)

(** [m * 2^e] counted in units of the smallest subnormal, [2^-1074]. *)
Definition units (m e : Z) : Z := m * 2 ^ (e + 1074).

(** A mantissa and exponent as binary64 stores them. *)
Definition canonical (m : positive) (e : Z) : Prop :=
  fexp F64.prec F64.emax (Zpos (digits2_pos m) + e) = e.

(** [b] is [a] shifted right by [k] bits, and holds no lost bit if [a]
    held none and the bits shifted out are zero. *)
Definition shifted (k : Z) (a b : shr_record) : Prop :=
  0 <= shr_m a ->
  0 <= shr_m b /\ shr_m b = shr_m a / 2 ^ k /\
  (shr_m a mod 2 ^ k = 0 -> shr_r a = false -> shr_s a = false ->
   shr_r b = false /\ shr_s b = false).

(** What [binary_round_aux] returns for a mantissa [m2] at exponent [e2]. *)
Definition rounded (s : bool) (m2 e2 : Z) : float64 :=
  match m2 with
  | Z0 => S754_zero s
  | Zpos m => if Z.leb e2 971 then S754_finite s m e2 else S754_infinity s
  | Zneg _ => S754_nan
  end.

(** A float as binary64 stores it: a finite one has a canonical mantissa
    and an exponent in range. *)
Definition binary64 (x : float64) : Prop :=
  valid_binary F64.prec F64.emax x = true.

(** ** Vocabulary of the properties *)

(** The keys of the metrics dict and the value under each. *)
Inductive field : Type :=
| f_processes | f_requirements | f_risks
| f_estimate_total | f_estimate_confidence | f_data_quality_score
| f_process_coverage | f_requirements_complete | f_fsd_completeness
| f_agent_idle_percentage.

#[global] Instance field_eq_dec : EqDecision field.
Proof. solve_decision. Defined.

Definition get (f : field) (m : Metrics) : value :=
  match f with
  | f_processes => VInt (processes m)
  | f_requirements => VInt (requirements m)
  | f_risks => VInt (risks m)
  | f_estimate_total => estimate_total m
  | f_estimate_confidence => estimate_confidence m
  | f_data_quality_score => of_num (data_quality_score m)
  | f_process_coverage => VFloat (process_coverage m)
  | f_requirements_complete => VFloat (requirements_complete m)
  | f_fsd_completeness => VFloat (fsd_completeness m)
  | f_agent_idle_percentage => VFloat (agent_idle_percentage m)
  end.

(** The reducer table: the fields an event type is allowed to change. *)
Definition touched (et : string) : list field :=
  if String.eqb et "process.discovered" then
    [f_processes; f_process_coverage]
  else if String.eqb et "requirement.identified" then
    [f_requirements; f_requirements_complete]
  else if String.eqb et "risk.identified" then [f_risks]
  else if String.eqb et "estimate.updated" then
    [f_estimate_total; f_estimate_confidence]
  else if String.eqb et "data.quality.score" then [f_data_quality_score]
  else if String.eqb et "fsd.section_drafted" then [f_fsd_completeness]
  else [].

Definition handled_types : list string :=
  [ "process.discovered"; "requirement.identified"; "risk.identified";
    "estimate.updated"; "data.quality.score"; "fsd.section_drafted" ].

(** The metrics dicts the orchestrator can hold: the initial one, changed
    by the reducer and by the idle update of [dashboards]. *)
Inductive reachable : Metrics -> Prop :=
| reach_init : reachable initial_metrics
| reach_reduce m evt m' :
    reachable m -> reduce m evt = Ok m' -> reachable m'
| reach_idle m avg_comp :
    reachable m ->
    reachable (set_agent_idle_percentage (idle_percentage avg_comp) m).

(** The cumulative fields of [m'] are at least those of [m]. *)
Definition monotone_fields_le (m m' : Metrics) : Prop :=
  processes m <= processes m' /\
  requirements m <= requirements m' /\
  risks m <= risks m' /\
  F64.leb (process_coverage m) (process_coverage m') = true /\
  F64.leb (requirements_complete m) (requirements_complete m') = true /\
  F64.leb (fsd_completeness m) (fsd_completeness m') = true /\
  num_leb (data_quality_score m) (data_quality_score m') = true.

(** [r] is a maximum of [xs]: it equals one of them and none is above it. *)
Definition is_max_of (r : num) (xs : list num) : Prop :=
  (exists x, In x xs /\ num_eqb r x = true) /\
  (forall x, In x xs -> num_ltb r x = false).

(** The numbers found under ["score"] in the payloads. *)
Definition carried_scores (evts : list event) : list num :=
  omap (fun evt => data evt !! "score" ≫= as_num) evts.

(** What [d.get("score", 0.2)] yields for each event. *)
Definition read_scores (evts : list event) : list value :=
  map (fun evt => default (VFloat (F64.dec 2 1)) (data evt !! "score")) evts.

Definition is_quality_score (evt : event) : Prop :=
  event_type evt = "data.quality.score".

(** The six events of the scenario. *)
Definition scenario : list event :=
  [ mk_event "process.discovered" [];
    mk_event "process.discovered" [];
    mk_event "requirement.identified" [];
    mk_event "data.quality.score" [("score", VFloat (F64.dec 4 1))];
    mk_event "data.quality.score" [("score", VFloat (F64.dec 3 1))];
    mk_event "estimate.updated"
      [("total_hours", VInt 1500); ("confidence", VFloat (F64.dec 7 1))] ].

(** The result the scenario is expected to give, compared with [==]. *)
Definition scenario_expected (m : Metrics) : Prop :=
  processes m = 2 /\
  F64.eqb (process_coverage m) (F64.dec 7 2) = true /\
  requirements m = 1 /\
  F64.eqb (requirements_complete m) (F64.dec 6 2) = true /\
  num_eqb (data_quality_score m) (NFloat (F64.dec 4 1)) = true /\
  (exists n, as_num (estimate_total m) = Some n /\
             num_eqb n (NInt 1500) = true) /\
  (exists n, as_num (estimate_confidence m) = Some n /\
             num_eqb n (NFloat (F64.dec 7 1)) = true).

(** The capped fields are within their ceilings. *)
Definition capped (m : Metrics) : Prop :=
  F64.leb (process_coverage m) (F64.dec 95 2) = true /\
  F64.leb (requirements_complete m) (F64.dec 95 2) = true /\
  F64.leb (fsd_completeness m) (F64.dec 98 2) = true.

(** A metrics dict whose capped fields are binary64 numbers within their
    ceilings and whose quality score is not NaN. *)
Definition within_ceilings (m : Metrics) : Prop :=
  binary64 (process_coverage m) /\
  binary64 (requirements_complete m) /\
  binary64 (fsd_completeness m) /\
  capped m /\
  num_leb (data_quality_score m) (data_quality_score m) = true.

(** The values a capped field runs through: [x0], then
    [min(cap, x + inc)] again and again. *)
Definition bump (cap inc x : float64) : float64 :=
  py_min cap (F64.add x inc).

Fixpoint orbit (cap inc : float64) (n : nat) (x : float64) : list float64 :=
  match n with
  | O => [x]
  | S n' => x :: orbit cap inc n' (bump cap inc x)
  end.

Definition coverage_values : list float64 :=
  orbit (F64.dec 95 2) (F64.dec 1 2) 90 (F64.dec 5 2).

Definition fsd_values : list float64 :=
  orbit (F64.dec 98 2) (F64.dec 2 2) 47 (F64.dec 5 2).

Arguments coverage_values : simpl never.
Arguments fsd_values : simpl never.

Definition in_list (x : float64) (l : list float64) : bool :=
  existsb (fun y => bool_decide (x = y)) l.

(** What the reducer maintains: the capped fields are among the values of
    their runs and the quality score is not NaN. *)
Definition tracked (m : Metrics) : Prop :=
  In (process_coverage m) coverage_values /\
  In (requirements_complete m) coverage_values /\
  In (fsd_completeness m) fsd_values /\
  num_leb (data_quality_score m) (data_quality_score m) = true.

(** Consecutive clock readings of timed-out polls, starting after [t]:
    each poll lasts at least its 0.2 s timeout, and less than a day minus
    31 s. *)
Fixpoint ticks (t : Z) (times : list Z) : Prop :=
  match times with
  | [] => True
  | t1 :: rest => 200000 <= t1 - t < 86369000000 /\ ticks t1 rest
  end.

(** Every object a snapshot refers to is allocated and is not the live
    dict, and each line of the snapshot log shows its snapshot's object. *)
Definition line_of (h : gmap loc Metrics) (s : snap) : snapshot :=
  {| line_ts := snap_ts s; line_day := snap_day s;
     line_hours_to_cutoff := snap_hours_to_cutoff s;
     line_metrics := h !!! snap_metrics s |}.

Definition wf (o : orch) : Prop :=
  is_Some (heap o !! metrics o) /\
  Forall (fun s => is_Some (heap o !! snap_metrics s) /\
                   snap_metrics s <> metrics o) (snaps o) /\
  dlog o = map (line_of (heap o)) (snaps o).

From Stdlib Require Import Qround Ascii.

(** ** The polls of a quiet bus *)

(** The orchestrator after the consume loop has received the events of a
    list. *)
Definition after (ip : interp) (o : orch) (evts : list event) : orch :=
  match pump ip o (map Received evts) with
  | Running o' => o'
  | Stopped o' => o'
  | Raised _ o' => o'
  end.

(** The polls of [pump] when no producer runs any more: the queued events
    come one by one, then every poll times out. *)
Definition quiet_polls (q : list event) (times : list Z) : list poll :=
  map Received q ++ map TimedOut times.

(** The events [pump] receives before a timeout finds the deadline passed,
    and whether such a timeout occurs. *)
Fixpoint consumed (start_ : Z) (polls : list poll) : list event :=
  match polls with
  | [] => []
  | TimedOut now :: rest =>
      if td_seconds (now - start_) >? RUNTIME_SECONDS then []
      else consumed start_ rest
  | Received evt :: rest => evt :: consumed start_ rest
  end.

Definition deadline_seen (start_ : Z) (polls : list poll) : bool :=
  existsb (fun p => match p with
                    | TimedOut now => td_seconds (now - start_) >? RUNTIME_SECONDS
                    | Received _ => false
                    end) polls.

(** An event the reducer cannot digest: a data.quality.score whose score is
    there and is not a number. *)
Definition poisoned (evt : event) : Prop :=
  event_type evt = "data.quality.score" /\
  exists v, data evt !! "score" = Some v /\ as_num v = None.

(** The number of events of a type in a log. *)
Definition count_type (et : string) (evts : list event) : Z :=
  Z.of_nat (length (List.filter (fun evt => String.eqb (event_type evt) et) evts)).

(** The value an estimate field ends with: the one of the last
    estimate.updated event that carries [key], else [init]. *)
Fixpoint last_payload (key : string) (evts : list event) (init : value)
    : value :=
  match evts with
  | [] => init
  | evt :: rest =>
      last_payload key rest
        (if String.eqb (event_type evt) "estimate.updated"
         then default init (data evt !! key)
         else init)
  end.

(** The decimal [(5 + step * k) / 100], and whether a float is within
    [10^-15] of it. *)
Definition near_decimal (step : Z) (k : nat) (x : float64) : bool :=
  match F64.to_x x with
  | XReal.XFin q =>
      let d := Qmake (5 + step * Z.of_nat k) 100 in
      Qle_bool (Qminus q d) (Qmake 1 1000000000000000)
      && Qle_bool (Qminus d q) (Qmake 1 1000000000000000)
  | _ => false
  end.

(** The counters and the capped fields, as the events of the log determine
    them. *)
Definition counted (o : orch) : Prop :=
  processes (live o) = count_type "process.discovered" (evlog o) /\
  requirements (live o) = count_type "requirement.identified" (evlog o) /\
  risks (live o) = count_type "risk.identified" (evlog o).

Definition nth_capped (vals : list float64) (cap : float64) (last : nat)
    (n : Z) : float64 :=
  nth (Nat.min (Z.to_nat n) last) vals cap.

(** A checker for the run of a capped field: one more bump moves to the
    next listed value, the values before the last differ from the cap and
    sit within [10^-15] of their decimals, and the last one is the cap. *)
Definition orbit_ok (cap inc : float64) (vals : list float64) (last : nat)
    (step : Z) : bool :=
  forallb
    (fun k =>
       bool_decide (bump cap inc (nth k vals cap)
                    = nth (Nat.min (S k) last) vals cap)
       && (if (k <? last)%nat
           then negb (bool_decide (nth k vals cap = cap))
                && near_decimal step k (nth k vals cap)
           else bool_decide (nth k vals cap = cap)))
    (seq 0 (S last)).

(** A capped field [x] after [n] events of its type. *)
Definition follows (vals : list float64) (cap : float64) (last : nat)
    (step : Z) (n : Z) (x : float64) : Prop :=
  x = nth_capped vals cap last n /\
  (x = cap <-> Z.of_nat last <= n) /\
  (n < Z.of_nat last -> near_decimal step (Z.to_nat n) x = true).

(** ** Rounding to decimals *)

(** The integer nearest to [q], ties to even. *)
Definition round_half_even (q : Q) : Z :=
  let f := Qfloor q in
  match Qcompare (Qminus q (inject_Z f)) (Qmake 1 2) with
  | Lt => f
  | Gt => f + 1
  | Eq => if Z.even f then f else f + 1
  end.

(** [round(x, ndigits)] on a float, for [0 <= ndigits]: the exact value of
    [x] is rounded to [ndigits] decimals, ties to even, and the decimal
    obtained is converted back to the nearest float.  The conversion is
    modelled for decimals of fewer than [2^53] units in the last place,
    those two integers binary64 holds exactly. *)
Definition py_round (x : float64) (ndigits : Z) : float64 :=
  match x with
  | S754_finite s m e =>
      let q := F64.dyadic (cond_Zopp s (Zpos m)) e in
      let n := round_half_even (Qmult q (inject_Z (10 ^ ndigits))) in
      if Z.eqb n 0 then S754_zero s else F64.dec n ndigits
  | _ => x
  end.

(** What [hours_to_cutoff] is checked to be for a remaining time [r]. *)
Definition hours_ok (r : Z) : bool :=
  let h := F64.div (F64.of_Z r) (F64.dec 25 2) in
  bool_decide (h = F64.of_Z (4 * r))
  && bool_decide (py_round h 2 = h)
  && F64.leb (F64.of_Z 0) h
  && F64.leb h (F64.of_Z 108)
  && Bool.eqb (bool_decide (h = F64.of_Z 0)) (Z.eqb r 0).

(** A line of the snapshot log as [dashboards] can write it. *)
Definition line_ok (ln : snapshot) : Prop :=
  1 <= line_day ln <= 5 /\
  (exists k, 0 <= k <= 27 /\ line_hours_to_cutoff ln = F64.of_Z (4 * k)) /\
  In (agent_idle_percentage (line_metrics ln))
     [F64.dec 35 2; F64.dec 15 2; F64.dec 5 2] /\
  capped (line_metrics ln) /\
  reachable (line_metrics ln).

(** ** The agents *)

(** Float multiplication. *)
Definition f64_mul : float64 -> float64 -> float64 := SFmul F64.prec F64.emax.

(** [f"{n:0{width}d}"]: the decimal digits of [n], zero-padded on the left
    to [width] characters, the sign first for a negative [n]. *)
Definition digit_char (d : Z) : ascii := ascii_of_nat (48 + Z.to_nat d).

(** The decimal digits of a non-negative [n], least significant first. *)
Fixpoint digits_rev (fuel : nat) (n : Z) : list Z :=
  match fuel with
  | O => []
  | S fuel' =>
      (n mod 10) :: (if Z.eqb (n / 10) 0 then [] else digits_rev fuel' (n / 10))
  end.

Definition digits (n : Z) : list Z :=
  rev (digits_rev (S (Z.to_nat (Z.log2 n))) n).

Definition pad_zeros (width : nat) (ds : list Z) : list Z :=
  repeat 0 (width - length ds) ++ ds.

Definition fmt_0d (width : nat) (n : Z) : string :=
  if Z.ltb n 0
  then String "-"%char
         (string_of_list_ascii
            (map digit_char (pad_zeros (width - 1) (digits (- n)))))
  else string_of_list_ascii (map digit_char (pad_zeros width (digits n))).

(** Reading a zero-padded decimal back. *)
Definition digit_of_char (c : ascii) : option Z :=
  let k := Z.of_nat (nat_of_ascii c) in
  if (Z.leb 48 k && Z.leb k 57)%bool then Some (k - 48) else None.

Fixpoint parse_digits (acc : Z) (cs : list ascii) : option Z :=
  match cs with
  | [] => Some acc
  | c :: rest =>
      match digit_of_char c with
      | Some d => parse_digits (acc * 10 + d) rest
      | None => None
      end
  end.

Definition parse_decimal (s : string) : option Z :=
  parse_digits 0 (list_ascii_of_string s).

(** The number a list of digits, least significant first, stands for. *)
Fixpoint digits_value (ds : list Z) : Z :=
  match ds with
  | [] => 0
  | d :: rest => d + 10 * digits_value rest
  end.

(** The event an agent publishes in one iteration of [agent_worker], if
    any: [r] is the draw of [random.random()], [conf] the rounded draw of
    the process confidence, [n] the agent's [events_published].  The
    counter is converted to a float where the source multiplies it by one;
    the OverflowError of a counter beyond the float range is left out, and
    [published] below keeps the counter within that range. *)
Definition agent_emit (name : string) (r conf : float64) (n : Z)
    : option (string * gmap string value) :=
  if (String.eqb name "process_mapper" && F64.ltb r (F64.dec 4 1))%bool then
    Some ("process.discovered",
          <["process_id" := VStr (String.append "proc_" (fmt_0d 4 n))]>
          (<["confidence" := VFloat conf]> ∅))
  else if (String.eqb name "fsd_drafter" && F64.ltb r (F64.dec 3 1))%bool then
    Some ("fsd.section_drafted", <["section" := VStr "requirements"]> ∅)
  else if (String.eqb name "estimator" && F64.ltb r (F64.dec 15 2))%bool then
    Some ("estimate.updated",
          <["total_hours" := VInt (1200 + n * 2)]>
          (<["confidence" :=
               VFloat (py_min (F64.dec 9 1)
                         (F64.add (F64.dec 4 1)
                            (f64_mul (F64.of_Z n) (F64.dec 1 2))))]> ∅))
  else if (String.eqb name "master_data" && F64.ltb r (F64.dec 25 2))%bool then
    Some ("data.quality.score",
          <["score" :=
              VFloat (py_min (F64.dec 95 2)
                        (F64.add (F64.dec 3 1)
                           (f64_mul (F64.of_Z n) (F64.dec 2 2))))]> ∅)
  else if (String.eqb name "policy_compiler"
           && F64.ltb r (F64.dec 15 2))%bool then
    Some ("requirement.identified",
          <["id" := VStr (String.append "REQ-" (fmt_0d 4 n))]> ∅)
  else if (String.eqb name "engagement_planner"
           && F64.ltb r (F64.dec 1 1))%bool then
    Some ("plan.updated",
          <["duration_weeks" := VInt (16 - Z.min 8 (n / 10))]> ∅)
  else if F64.ltb r (F64.dec 5 2) then
    Some ("risk.identified",
          <["id" := VStr (String.append "R" (fmt_0d 3 n))]>
          (<["impact" := VFloat (F64.dec 3 1)]>
          (<["probability" := VFloat (F64.dec 3 1)]> ∅)))
  else None.

(** The one event type an agent can publish. *)
Definition own_type (name : string) : string :=
  if String.eqb name "process_mapper" then "process.discovered"
  else if String.eqb name "fsd_drafter" then "fsd.section_drafted"
  else if String.eqb name "estimator" then "estimate.updated"
  else if String.eqb name "master_data" then "data.quality.score"
  else if String.eqb name "policy_compiler" then "requirement.identified"
  else if String.eqb name "engagement_planner" then "plan.updated"
  else "risk.identified".

(** [max(a, b)] on two floats. *)
Definition py_max_float (a b : float64) : float64 :=
  if XReal.gtb (F64.to_x b) (F64.to_x a) then b else a.

Definition is_zero (x : float64) : bool :=
  match x with S754_zero _ => true | _ => false end.

(** The completeness an agent sets, from what [pow] returned: [None] stands
    for the ZeroDivisionError of a float division by zero. *)
Definition completeness_of (p : float64) : option float64 :=
  let den := F64.add (F64.of_Z 1) p in
  if is_zero den then None
  else Some (py_max_float (F64.dec 0 1)
               (py_min (F64.dec 99 2) (F64.div (F64.of_Z 1) den))).

(** An event that some agent can publish: the counter starts at 0 and is
    advanced by one in each iteration. *)
Definition published (evt : event) : Prop :=
  exists name r conf n,
    0 <= n < 2 ^ 1023 /\
    agent_emit name r conf n = Some (event_type evt, data evt).

(** The estimate fields as the estimator leaves them: the total is the
    initial float or an integer [1200 + 2 n], the confidence a float of at
    most 0.9. *)
Definition estimate_ok (m : Metrics) : Prop :=
  (estimate_total m = VFloat (F64.dec 0 1) \/
   exists n, 0 <= n /\ estimate_total m = VInt (1200 + n * 2)) /\
  exists c, estimate_confidence m = VFloat c /\
            F64.leb c (F64.dec 9 1) = true.

(** The quality score is at most 0.95. *)
Definition score_ok (m : Metrics) : Prop :=
  num_leb (data_quality_score m) (NFloat (F64.dec 95 2)) = true.

(** The event types whose payload carries an identifier built from the
    counter. *)
Definition id_types : list string :=
  ["process.discovered"; "requirement.identified"; "risk.identified"].

(** * Properties *)

(** ** The order on Python numbers *)

Module XRealFacts.
Import XReal.

Ltac cmp_cases :=
  repeat match goal with
  | x : xreal |- _ => destruct x as [|[]|?]
  end;
  unfold leb, ltb, gtb, geb, eqb; simpl;
  repeat match goal with
  | |- context [Qcompare ?p ?q] => destruct (Qcompare_spec p q)
  | H : context [Qcompare ?p ?q] |- _ => destruct (Qcompare_spec p q)
  end;
  try reflexivity; try discriminate; intros;
  try discriminate; try reflexivity; try (exfalso; lra).

Lemma ltb_leb x y : ltb x y = true -> leb x y = true.
Proof. cmp_cases. Qed.

Lemma gtb_leb x y : gtb x y = true -> leb y x = true.
Proof. cmp_cases. Qed.

Lemma leb_not_ltb x y : leb x y = true -> ltb y x = false.
Proof. cmp_cases. Qed.

Lemma leb_refl_l x y : leb x y = true -> leb x x = true.
Proof. cmp_cases. Qed.

Lemma leb_refl_r x y : leb x y = true -> leb y y = true.
Proof. cmp_cases. Qed.

Lemma eqb_leb x y : eqb x y = true -> leb x y = true.
Proof. cmp_cases. Qed.

Lemma leb_trans x y z : leb x y = true -> leb y z = true -> leb x z = true.
Proof. cmp_cases. Qed.

Lemma not_ltb_leb x y :
  ltb x y = false -> leb x x = true -> leb y y = true -> leb y x = true.
Proof. cmp_cases. Qed.

Lemma not_gtb_leb x y :
  gtb x y = false -> leb x x = true -> leb y y = true -> leb x y = true.
Proof. cmp_cases. Qed.

Lemma ltb_nan_r x y : leb y y = false -> ltb x y = false.
Proof. cmp_cases. Qed.

Lemma eqb_refl x : leb x x = true -> eqb x x = true.
Proof. cmp_cases. Qed.

Lemma leb_antisym x y : leb x y = true -> leb y x = true -> eqb x y = true.
Proof. cmp_cases. Qed.

Lemma eqb_sym x y : eqb x y = true -> eqb y x = true.
Proof. cmp_cases. Qed.

End XRealFacts.

(** ** The float literals *)

(** The literals of the source, as binary64 numbers. *)
Lemma literal_bits :
  F64.dec 0 1 = S754_zero false /\
  F64.dec 1 2 = S754_finite false 5764607523034235 (-59) /\
  F64.dec 2 2 = S754_finite false 5764607523034235 (-58) /\
  F64.dec 5 2 = S754_finite false 7205759403792794 (-57) /\
  F64.dec 2 1 = S754_finite false 7205759403792794 (-55) /\
  F64.dec 95 2 = S754_finite false 8556839292003942 (-53) /\
  F64.dec 98 2 = S754_finite false 8827055269646172 (-53).
Proof. vm_compute. repeat split. Qed.

(** [0.05 + 0.01] is not the literal [0.06] but the float next above it,
    while [0.05 + 0.01 + 0.01] is the literal [0.07]. *)
Lemma add_5_1 :
  F64.add (F64.dec 5 2) (F64.dec 1 2) = SFsucc F64.prec F64.emax (F64.dec 6 2).
Proof. vm_compute. reflexivity. Qed.

Lemma add_5_1_1 :
  F64.add (F64.add (F64.dec 5 2) (F64.dec 1 2)) (F64.dec 1 2) = F64.dec 7 2.
Proof. vm_compute. reflexivity. Qed.

(** On the values the capped fields take, the order by exact value is the
    comparison of [SpecFloat]. *)
Lemma compare_agrees :
  let l := coverage_values ++ fsd_values in
  forallb (fun x =>
    forallb (fun y =>
      bool_decide (XReal.compare (F64.to_x x) (F64.to_x y) = SFcompare x y))
      l) l = true.
Proof. vm_compute. reflexivity. Qed.

(** ** Rounding to nearest never crosses a binary64 number *)

Lemma digits2_pos_size (p : positive) : digits2_pos p = Pos.size p.
Proof. induction p; simpl; congruence. Qed.

Lemma digits_bounds (p : positive) :
  2 ^ (Zpos (digits2_pos p) - 1) <= Zpos p < 2 ^ Zpos (digits2_pos p).
Proof.
  rewrite digits2_pos_size.
  pose proof (Pos.size_gt p) as Hgt. pose proof (Pos.size_le p) as Hle.
  apply Pos2Z.pos_lt_pos in Hgt. rewrite Pos2Z.inj_pow in Hgt.
  apply Pos2Z.pos_le_pos in Hle. rewrite Pos2Z.inj_pow in Hle.
  split; [|exact Hgt].
  replace (Z.pos (Pos.size p)) with (Z.succ (Z.pos (Pos.size p) - 1)) in Hle
    by lia.
  rewrite Z.pow_succ_r in Hle by lia. lia.
Qed.

Lemma shifted_1 (a : shr_record) : shifted 1 a (shr_1 a).
Proof.
  destruct a as [m r s]. unfold shifted. cbn [shr_m shr_r shr_s].
  intros Hm. rewrite Z.pow_1_r.
  destruct m as [|[p|p|]|]; try lia; cbn [shr_1 shr_m shr_r shr_s];
    (split; [lia|]); (split; [Z.div_mod_to_equations; lia|]);
    intros Hmod Hr Hs; subst; try (Z.div_mod_to_equations; lia);
    split; reflexivity.
Qed.

Lemma shifted_comp (j k : Z) (a b c : shr_record) :
  0 <= j -> 0 <= k -> shifted j a b -> shifted k b c -> shifted (j + k) a c.
Proof.
  intros Hj Hk Hab Hbc Ha.
  destruct (Hab Ha) as (Hb & Eb & Xb).
  destruct (Hbc Hb) as (Hc & Ec & Xc).
  assert (Pj : 0 < 2 ^ j) by (apply Z.pow_pos_nonneg; lia).
  assert (Pk : 0 < 2 ^ k) by (apply Z.pow_pos_nonneg; lia).
  split; [exact Hc|]. split.
  - rewrite Ec, Eb, Z.pow_add_r by lia. apply Z.div_div; lia.
  - intros Hmod Hr Hs.
    rewrite Z.pow_add_r in Hmod by lia.
    apply Z.mod_divide in Hmod; [|lia]. destruct Hmod as [q Hq].
    apply Xc.
    + rewrite Eb, Hq.
      replace (q * (2 ^ j * 2 ^ k)) with (q * 2 ^ k * 2 ^ j) by ring.
      rewrite Z.div_mul by lia. apply Z.mod_mul. lia.
    + apply Xb; [|exact Hr|exact Hs].
      rewrite Hq. replace (q * (2 ^ j * 2 ^ k)) with (q * 2 ^ k * 2 ^ j) by ring.
      apply Z.mod_mul. lia.
    + apply Xb; [|exact Hr|exact Hs].
      rewrite Hq. replace (q * (2 ^ j * 2 ^ k)) with (q * 2 ^ k * 2 ^ j) by ring.
      apply Z.mod_mul. lia.
Qed.

Lemma shifted_iter (p : positive) :
  forall a, shifted (Zpos p) a (SpecFloat.iter_pos shr_1 p a).
Proof.
  induction p as [p IH|p IH|]; intros a; cbn [SpecFloat.iter_pos].
  - replace (Z.pos p~1) with (1 + (Z.pos p + Z.pos p)) by lia.
    apply (shifted_comp _ _ _ (shr_1 a)); [lia|lia|apply shifted_1|].
    apply (shifted_comp _ _ _ (SpecFloat.iter_pos shr_1 p (shr_1 a))); [lia|lia|apply IH|apply IH].
  - replace (Z.pos p~0) with (Z.pos p + Z.pos p) by lia.
    apply (shifted_comp _ _ _ (SpecFloat.iter_pos shr_1 p a)); [lia|lia|apply IH|apply IH].
  - apply shifted_1.
Qed.

Lemma fexp_eq (e : Z) : fexp F64.prec F64.emax e = Z.max (e - 53) (-1074).
Proof. reflexivity. Qed.

Lemma canonical_bounds (m : positive) (e : Z) :
  canonical m e -> -1074 <= e /\ Zpos (digits2_pos m) <= 53 /\
  (-1074 < e -> Zpos (digits2_pos m) = 53).
Proof. unfold canonical. rewrite fexp_eq. lia. Qed.

Lemma pow2_pos (x : Z) : 0 <= x -> 0 < 2 ^ x.
Proof. intros. apply Z.pow_pos_nonneg; lia. Qed.

Lemma units_shift (m e1 e2 : Z) :
  -1074 <= e1 <= e2 -> units m e2 = units (m * 2 ^ (e2 - e1)) e1.
Proof.
  intros H. unfold units.
  replace (e2 + 1074) with ((e2 - e1) + (e1 + 1074)) by lia.
  rewrite Z.pow_add_r by lia. ring.
Qed.

Lemma units_le (a b e : Z) : -1074 <= e -> (units a e <= units b e <-> a <= b).
Proof.
  intros H. unfold units. pose proof (pow2_pos (e + 1074) ltac:(lia)). nia.
Qed.

Lemma units_lt (a b e : Z) : -1074 <= e -> (units a e < units b e <-> a < b).
Proof.
  intros H. unfold units. pose proof (pow2_pos (e + 1074) ltac:(lia)). nia.
Qed.

(** The larger number has the larger magnitude. *)
Lemma digits_mono (a b : positive) (ea eb : Z) :
  -1074 <= ea -> -1074 <= eb ->
  units (Zpos a) ea <= units (Zpos b) eb ->
  Zpos (digits2_pos a) + ea <= Zpos (digits2_pos b) + eb.
Proof.
  intros Ha Hb Hle.
  destruct (Z_le_gt_dec (Zpos (digits2_pos a) + ea) (Zpos (digits2_pos b) + eb))
    as [?|Hgt]; [assumption|exfalso].
  pose proof (digits_bounds a) as [La _].
  pose proof (digits_bounds b) as [_ Ub].
  set (da := Zpos (digits2_pos a)) in *. set (db := Zpos (digits2_pos b)) in *.
  assert (Hda : 1 <= da) by (unfold da; lia).
  assert (Hdb : 1 <= db) by (unfold db; lia).
  assert (H1 : 2 ^ (db + (eb + 1074)) <= 2 ^ ((da - 1) + (ea + 1074)))
    by (apply Z.pow_le_mono_r; lia).
  rewrite (Z.pow_add_r 2 db), (Z.pow_add_r 2 (da - 1)) in H1 by lia.
  unfold units in Hle.
  pose proof (pow2_pos (ea + 1074) ltac:(lia)) as Pa.
  pose proof (pow2_pos (eb + 1074) ltac:(lia)) as Pb.
  assert (H2 : Zpos b * 2 ^ (eb + 1074) < 2 ^ db * 2 ^ (eb + 1074))
    by (apply Z.mul_lt_mono_pos_r; assumption).
  assert (H3 : 2 ^ (da - 1) * 2 ^ (ea + 1074) <= Zpos a * 2 ^ (ea + 1074))
    by (apply Z.mul_le_mono_nonneg_r; lia).
  lia.
Qed.

(** Rounding down at the exponent of [M * 2^E] stays at or above every
    binary64 value below it. *)
Lemma round_down_above (M mx : positive) (E ex : Z) :
  -1074 <= E -> canonical mx ex ->
  units (Zpos mx) ex <= units (Zpos M) E ->
  let n := fexp F64.prec F64.emax (Zpos (digits2_pos M) + E) - E in
  0 <= n ->
  units (Zpos mx) ex <= units (Zpos M / 2 ^ n) (E + n).
Proof.
  intros HE Hc Hle n Hn.
  destruct (canonical_bounds _ _ Hc) as (Hex & Hdx & _).
  pose proof (digits_bounds M) as [LM UM].
  pose proof (digits_bounds mx) as [Lx Ux].
  set (d := Zpos (digits2_pos M)) in *.
  set (dx := Zpos (digits2_pos mx)) in *.
  assert (Hd : 1 <= d) by (unfold d; lia).
  assert (Hn' : n = Z.max (d + E - 53) (-1074) - E)
    by (unfold n; rewrite fexp_eq; reflexivity).
  pose proof (pow2_pos n Hn) as Pn.
  destruct (Z_le_gt_dec (E + n) ex) as [Hge|Hlt].
  - rewrite (units_shift _ (E + n) ex) by lia.
    apply units_le; [lia|].
    apply Z.div_le_lower_bound; [lia|].
    rewrite (units_shift _ E ex) in Hle by lia.
    apply units_le in Hle; [|lia].
    replace (ex - E) with (n + (ex - (E + n))) in Hle by lia.
    rewrite Z.pow_add_r in Hle by lia. nia.
  - assert (En : n = d - 53) by lia.
    assert (H52 : 2 ^ 52 <= Zpos M / 2 ^ n).
    { apply Z.div_le_lower_bound; [lia|].
      rewrite <- Z.pow_add_r by lia.
      replace (n + 52) with (d - 1) by lia. exact LM. }
    assert (H1 : 2 ^ (dx + (ex + 1074)) <= 2 ^ (52 + (E + n + 1074)))
      by (apply Z.pow_le_mono_r; lia).
    rewrite (Z.pow_add_r 2 dx), (Z.pow_add_r 2 52) in H1 by lia.
    unfold units.
    pose proof (pow2_pos (ex + 1074) ltac:(lia)).
    pose proof (pow2_pos (E + n + 1074) ltac:(lia)).
    nia.
Qed.

(** Rounding up at the exponent of [M * 2^E] stays at or below every
    binary64 value above it, and that exponent is at most theirs. *)
Lemma round_up_below (M mx : positive) (E ex m1 : Z) :
  -1074 <= E -> canonical mx ex ->
  units (Zpos M) E <= units (Zpos mx) ex ->
  let n := fexp F64.prec F64.emax (Zpos (digits2_pos M) + E) - E in
  0 <= n ->
  m1 <= Zpos M / 2 ^ n + 1 ->
  (Zpos M mod 2 ^ n = 0 -> m1 = Zpos M / 2 ^ n) ->
  E + n <= ex /\ units m1 (E + n) <= units (Zpos mx) ex.
Proof.
  intros HE Hc Hle n Hn Hm1 Hexact.
  destruct (canonical_bounds _ _ Hc) as (Hex & Hdx & _).
  pose proof (digits_mono _ _ _ _ HE Hex Hle) as Hd.
  assert (Hcan : E + n <= ex).
  { unfold n. unfold canonical in Hc. rewrite fexp_eq in *. lia. }
  split; [exact Hcan|].
  pose proof (pow2_pos n Hn) as Pn.
  rewrite (units_shift _ (E + n) ex) by lia.
  apply units_le; [lia|].
  rewrite (units_shift _ E ex) in Hle by lia.
  apply units_le in Hle; [|lia].
  replace (ex - E) with (n + (ex - (E + n))) in Hle by lia.
  rewrite Z.pow_add_r in Hle by lia.
  set (a := Zpos mx * 2 ^ (ex - (E + n))) in *.
  assert (Ha : Zpos M <= 2 ^ n * a) by (unfold a; nia).
  destruct (Z.eq_dec (Zpos M mod 2 ^ n) 0) as [Hz|Hnz].
  - rewrite (Hexact Hz). apply Z.div_le_upper_bound; [lia|exact Ha].
  - assert (Zpos M / 2 ^ n < a); [|lia].
    apply Z.div_lt_upper_bound; [lia|].
    destruct (Z.eq_dec (Zpos M) (2 ^ n * a)) as [E1|]; [|lia].
    exfalso. apply Hnz. rewrite E1, Z.mul_comm. apply Z.mod_mul. lia.
Qed.

Lemma shr_cases (mrs : shr_record) (e n : Z) :
  (n <= 0 /\ shr mrs e n = (mrs, e)) \/
  (0 < n /\ exists mrs', shr mrs e n = (mrs', e + n) /\ shifted n mrs mrs').
Proof.
  destruct n as [|p|p]; cbn [shr].
  - left. split; [lia|reflexivity].
  - right. split; [lia|]. eexists. split; [reflexivity|apply shifted_iter].
  - left. split; [lia|reflexivity].
Qed.

Lemma round_nearest_even_bounds (mrs : shr_record) :
  shr_m mrs <= round_nearest_even (shr_m mrs) (loc_of_shr_record mrs)
            <= shr_m mrs + 1 /\
  (shr_r mrs = false -> shr_s mrs = false ->
   round_nearest_even (shr_m mrs) (loc_of_shr_record mrs) = shr_m mrs).
Proof.
  destruct mrs as [m [|] [|]]; cbn; try destruct (Z.even m);
    split; try lia; try reflexivity; intros; discriminate.
Qed.

Lemma round_aux_spec (s : bool) (M : positive) (E : Z) :
  -1074 <= E ->
  E <= fexp F64.prec F64.emax (Zpos (digits2_pos M) + E) ->
  exists m2 e2,
    binary_round_aux F64.prec F64.emax s (Zpos M) E loc_Exact
      = rounded s m2 e2 /\
    0 <= m2 /\ -1074 <= e2 /\
    (forall mx ex, canonical mx ex ->
       units (Zpos mx) ex <= units (Zpos M) E ->
       units (Zpos mx) ex <= units m2 e2) /\
    (forall mx ex, canonical mx ex ->
       units (Zpos M) E <= units (Zpos mx) ex ->
       units m2 e2 <= units (Zpos mx) ex /\ e2 <= ex).
Proof.
  intros HE Hn.
  unfold binary_round_aux, shr_fexp. cbn [Zdigits2 shr_record_of_loc].
  set (n := fexp F64.prec F64.emax (Zpos (digits2_pos M) + E) - E) in *.
  assert (Hn0 : 0 <= n) by (unfold n; lia).
  (* the first shift *)
  assert (H1 : exists mrs',
             shr {| shr_m := Zpos M; shr_r := false; shr_s := false |} E n
               = (mrs', E + n) /\
             shifted n {| shr_m := Zpos M; shr_r := false; shr_s := false |}
                     mrs').
  { destruct (shr_cases {| shr_m := Zpos M; shr_r := false; shr_s := false |}
                E n) as [[Hle Heq]|[_ H]]; [|exact H].
    assert (n = 0) as -> by lia. eexists. rewrite Z.add_0_r.
    split; [exact Heq|].
    intros Hm. cbn [shr_m shr_r shr_s]. rewrite Z.pow_0_r, Z.div_1_r.
    split; [lia|]. split; [reflexivity|]. intros; split; reflexivity. }
  destruct H1 as (mrs' & -> & Hsh).
  destruct (Hsh ltac:(cbn; lia)) as (Hq0 & Hq & Hexact).
  cbn [shr_m shr_r shr_s] in Hq, Hexact.
  destruct (round_nearest_even_bounds mrs') as [Hb Hrne].
  set (m1 := round_nearest_even (shr_m mrs') (loc_of_shr_record mrs')) in *.
  set (e1 := E + n) in *.
  assert (Hm1 : 0 <= m1) by lia.
  assert (He1 : -1074 <= e1) by (unfold e1; lia).
  (* everything below m1 at e1, and everything above *)
  assert (LB1 : forall mx ex, canonical mx ex ->
            units (Zpos mx) ex <= units (Zpos M) E ->
            units (Zpos mx) ex <= units m1 e1).
  { intros mx ex Hc Hle.
    pose proof (round_down_above M mx E ex HE Hc Hle Hn0) as H.
    fold n in H. fold e1 in H. rewrite <- Hq in H.
    etransitivity; [exact H|]. apply units_le; lia. }
  assert (UB1 : forall mx ex, canonical mx ex ->
            units (Zpos M) E <= units (Zpos mx) ex ->
            e1 <= ex /\ units m1 e1 <= units (Zpos mx) ex).
  { intros mx ex Hc Hle.
    apply (round_up_below M mx E ex m1 HE Hc Hle Hn0).
    - fold n. lia.
    - fold n. intros Hz. destruct (Hexact Hz eq_refl eq_refl) as [Hr Hs].
      rewrite (Hrne Hr Hs). exact Hq. }
  (* the second shift *)
  set (n2 := fexp F64.prec F64.emax (Zdigits2 m1 + e1) - e1).
  destruct (shr_cases {| shr_m := m1; shr_r := false; shr_s := false |} e1 n2)
    as [[Hle2 ->]|[Hlt2 (mrs'' & -> & Hsh2)]]; cbn [shr_m].
  - exists m1, e1. split.
    { unfold rounded. destruct m1; reflexivity. }
    split; [exact Hm1|]. split; [exact He1|]. split; [exact LB1|].
    intros mx ex Hc Hle. destruct (UB1 mx ex Hc Hle). split; assumption.
  - destruct (Hsh2 ltac:(cbn; lia)) as (Hm2 & Hq2 & _).
    cbn [shr_m] in Hq2.
    destruct m1 as [|p1|p1]; [|clear Hm1|lia].
    { exfalso. unfold n2 in Hlt2. cbn [Zdigits2] in Hlt2.
      rewrite fexp_eq in Hlt2. lia. }
    cbn [Zdigits2] in n2.
    exists (shr_m mrs''), (e1 + n2). split.
    { unfold rounded. destruct (shr_m mrs''); reflexivity. }
    split; [exact Hm2|]. split; [lia|]. split.
    + intros mx ex Hc Hle.
      pose proof (LB1 mx ex Hc Hle) as H.
      pose proof (round_down_above p1 mx e1 ex He1 Hc H) as H'.
      fold n2 in H'. rewrite Hq2. apply H'. lia.
    + intros mx ex Hc Hle.
      destruct (UB1 mx ex Hc Hle) as [_ H].
      destruct (round_up_below p1 mx e1 ex (shr_m mrs'') He1 Hc H) as [A B].
      * fold n2. lia.
      * fold n2. lia.
      * fold n2. intros _. exact Hq2.
      * fold n2 in A. split; assumption.
Qed.

Lemma iter_xO (d m : positive) :
  Zpos (Pos.iter xO m d) = Zpos m * 2 ^ Zpos d /\
  Zpos (digits2_pos (Pos.iter xO m d)) = Zpos (digits2_pos m) + Zpos d.
Proof.
  induction d as [|d [IH1 IH2]] using Pos.peano_ind.
  - cbn [Pos.iter digits2_pos]. split; lia.
  - rewrite Pos.iter_succ. cbn [digits2_pos].
    rewrite !Pos2Z.inj_succ, Pos2Z.inj_xO, IH1, IH2.
    rewrite Z.pow_succ_r by lia. split; lia.
Qed.

Lemma binary_round_spec (s : bool) (M : positive) (E : Z) :
  -1074 <= E ->
  exists m2 e2,
    binary_round F64.prec F64.emax s M E = rounded s m2 e2 /\
    0 <= m2 /\ -1074 <= e2 /\
    (forall mx ex, canonical mx ex ->
       units (Zpos mx) ex <= units (Zpos M) E ->
       units (Zpos mx) ex <= units m2 e2) /\
    (forall mx ex, canonical mx ex ->
       units (Zpos M) E <= units (Zpos mx) ex ->
       units m2 e2 <= units (Zpos mx) ex /\ e2 <= ex).
Proof.
  intros HE. unfold binary_round, shl_align.
  set (ecan := fexp F64.prec F64.emax (Zpos (digits2_pos M) + E)).
  assert (Hcan : -1074 <= ecan) by (unfold ecan; rewrite fexp_eq; lia).
  destruct (ecan - E) as [|d|d] eqn:Hd.
  - apply round_aux_spec; [exact HE|fold ecan; lia].
  - apply round_aux_spec; [exact HE|fold ecan; lia].
  - destruct (iter_xO d M) as [Hm Hdig].
    assert (Hu : units (Zpos (Pos.iter xO M d)) ecan = units (Zpos M) E).
    { rewrite (units_shift (Zpos M) ecan E) by lia. rewrite Hm.
      replace (E - ecan) with (Zpos d) by lia. reflexivity. }
    destruct (round_aux_spec s (Pos.iter xO M d) ecan Hcan) as (m2 & e2 & H).
    { rewrite Hdig. replace (Zpos (digits2_pos M) + Zpos d + ecan)
        with (Zpos (digits2_pos M) + E) by lia. fold ecan. lia. }
    exists m2, e2. rewrite Hu in H. exact H.
Qed.

Lemma shl_align_fst (m : positive) (e e' : Z) :
  e' <= e -> Zpos (fst (shl_align m e e')) = Zpos m * 2 ^ (e - e').
Proof.
  intros H. unfold shl_align. destruct (e' - e) as [|d|d] eqn:Hd; cbn [fst].
  - replace (e - e') with 0 by lia. lia.
  - lia.
  - destruct (iter_xO d m) as [-> _]. replace (e - e') with (Zpos d) by lia.
    reflexivity.
Qed.

Lemma dyadic_units (m e : Z) :
  -1074 <= e ->
  Qnum (F64.dyadic m e) * 2 ^ 1074 = units m e * Zpos (Qden (F64.dyadic m e)).
Proof.
  intros H. unfold units, F64.dyadic. destruct e as [|p|p]; cbn [Qnum Qden inject_Z].
  - rewrite Z.add_0_l. lia.
  - rewrite Z.pow_add_r by lia. lia.
  - rewrite Pos2Z.inj_pow.
    replace (2 ^ 1074) with (2 ^ (Z.neg p + 1074) * 2 ^ Z.pos p).
    + ring.
    + rewrite <- Z.pow_add_r by lia. f_equal. lia.
Qed.

Lemma compare_scale (n m p : Z) :
  0 < p -> Z.compare (n * p) (m * p) = Z.compare n m.
Proof.
  intros Hp. destruct (Z.compare_spec n m) as [->|H|H].
  - apply Z.compare_refl.
  - apply Z.compare_lt_iff. nia.
  - apply Z.compare_gt_iff. nia.
Qed.

Lemma dyadic_compare (a b ea eb : Z) :
  -1074 <= ea -> -1074 <= eb ->
  Qcompare (F64.dyadic a ea) (F64.dyadic b eb)
  = Z.compare (units a ea) (units b eb).
Proof.
  intros Ha Hb. unfold Qcompare.
  pose proof (dyadic_units a ea Ha) as Ua.
  pose proof (dyadic_units b eb Hb) as Ub.
  set (p := F64.dyadic a ea) in *. set (q := F64.dyadic b eb) in *.
  assert (T : 0 < 2 ^ 1074) by (apply pow2_pos; lia).
  rewrite <- (compare_scale _ _ (2 ^ 1074) T).
  replace (Qnum p * Zpos (Qden q) * 2 ^ 1074)
    with (units a ea * (Zpos (Qden p) * Zpos (Qden q))) by (rewrite Z.mul_assoc, <- Ua; ring).
  replace (Qnum q * Zpos (Qden p) * 2 ^ 1074)
    with (units b eb * (Zpos (Qden p) * Zpos (Qden q))) by (rewrite (Z.mul_comm (Zpos (Qden p))), Z.mul_assoc, <- Ub; ring).
  apply compare_scale. lia.
Qed.

Lemma bounded_canonical (m : positive) (e : Z) :
  bounded F64.prec F64.emax m e = true -> canonical m e /\ e <= 971.
Proof.
  unfold bounded, canonical_mantissa, canonical.
  intros H. apply andb_true_iff in H as [H1 H2].
  apply Z.eqb_eq in H1. apply Z.leb_le in H2. split; [exact H1|exact H2].
Qed.

Lemma leb_units (a b ea eb : Z) :
  -1074 <= ea -> -1074 <= eb ->
  units a ea <= units b eb ->
  XReal.leb (XReal.XFin (F64.dyadic a ea)) (XReal.XFin (F64.dyadic b eb))
  = true.
Proof.
  intros Ha Hb Hle. unfold XReal.leb, XReal.compare.
  rewrite (dyadic_compare a b ea eb Ha Hb).
  destruct (Z.compare_spec (units a ea) (units b eb)); try reflexivity. lia.
Qed.

Lemma units_opp (a e : Z) : units (- a) e = - units a e.
Proof. unfold units. ring. Qed.

Lemma units_pos (m : positive) (e : Z) : -1074 <= e -> 0 < units (Zpos m) e.
Proof.
  intros H. unfold units. pose proof (pow2_pos (e + 1074) ltac:(lia)). nia.
Qed.

Lemma leb_rounded_up (sx : bool) (mx : positive) (ex m2 e2 : Z) :
  -1074 <= ex -> -1074 <= e2 -> 0 <= m2 ->
  units (cond_Zopp sx (Zpos mx)) ex <= units m2 e2 ->
  F64.leb (S754_finite sx mx ex) (rounded false m2 e2) = true.
Proof.
  intros Hex He2 Hm2 Hle. unfold F64.leb, rounded.
  destruct m2 as [|m|m]; [| |lia].
  - cbn [F64.to_x]. change 0%Q with (F64.dyadic 0 0).
    apply leb_units; [lia|lia|]. unfold units in *. lia.
  - destruct (Z.leb e2 971); cbn [F64.to_x cond_Zopp].
    + apply leb_units; assumption.
    + reflexivity.
Qed.

Lemma leb_rounded_down (mx : positive) (ex m2 e2 : Z) :
  -1074 <= ex -> -1074 <= e2 -> 0 <= m2 -> e2 <= 971 ->
  units m2 e2 <= units (Zpos mx) ex ->
  F64.leb (S754_finite true mx ex) (rounded true m2 e2) = true.
Proof.
  intros Hex He2 Hm2 Hmax Hle. unfold F64.leb, rounded.
  pose proof (units_pos mx ex Hex) as Hpos.
  destruct m2 as [|m|m]; [| |lia].
  - cbn [F64.to_x cond_Zopp]. change 0%Q with (F64.dyadic 0 0).
    apply leb_units; [lia|lia|]. rewrite units_opp. unfold units at 2. lia.
  - apply Z.leb_le in Hmax. rewrite Hmax. cbn [F64.to_x cond_Zopp].
    apply leb_units; [lia|lia|]. rewrite !units_opp. lia.
Qed.

(** Adding a positive binary64 number never gives less. *)
Lemma add_above (x : float64) (mc : positive) (ec : Z) :
  binary64 x -> bounded F64.prec F64.emax mc ec = true ->
  F64.leb x x = true ->
  F64.leb x (F64.add x (S754_finite false mc ec)) = true.
Proof.
  intros Hx Hc Hnan.
  destruct (bounded_canonical _ _ Hc) as [Cc _].
  destruct (canonical_bounds _ _ Cc) as (Hec & _).
  destruct x as [sx|sx| |sx mx ex]; cbn [F64.add SFadd].
  - unfold F64.add. cbn [SFadd]. unfold F64.leb. cbn [F64.to_x cond_Zopp].
    change 0%Q with (F64.dyadic 0 0).
    apply leb_units; [lia|lia|].
    pose proof (units_pos mc ec Hec). unfold units at 1. lia.
  - unfold F64.add. cbn [SFadd]. exact Hnan.
  - discriminate Hnan.
  - unfold binary64 in Hx. cbn [valid_binary] in Hx.
    destruct (bounded_canonical _ _ Hx) as [Cx Hmax].
    destruct (canonical_bounds _ _ Cx) as (Hex & _).
    unfold F64.add. cbn [SFadd].
    set (ez := Z.min ex ec).
    rewrite (shl_align_fst mx ex ez), (shl_align_fst mc ec ez) by (unfold ez; lia).
    cbn [cond_Zopp].
    set (S := cond_Zopp sx (Zpos mx * 2 ^ (ex - ez)) + Zpos mc * 2 ^ (ec - ez)).
    assert (Hez : -1074 <= ez) by (unfold ez; lia).
    assert (HS : units S ez = units (cond_Zopp sx (Zpos mx)) ex + units (Zpos mc) ec).
    { rewrite (units_shift _ ez ex), (units_shift _ ez ec) by (unfold ez; lia).
      unfold S, units. destruct sx; cbn [cond_Zopp]; ring. }
    pose proof (units_pos mc ec Hec) as Pc.
    pose proof (units_pos mx ex Hex) as Px.
    destruct S as [|p|p] eqn:ES; cbn [binary_normalize].
    + (* the sum is zero *)
      assert (sx = true) as ->.
      { destruct sx; [reflexivity|]. cbn [cond_Zopp] in HS. unfold units at 1 in HS. lia. }
      unfold F64.leb. cbn [F64.to_x cond_Zopp]. change 0%Q with (F64.dyadic 0 0).
      apply leb_units; [lia|lia|]. rewrite units_opp. unfold units at 2. lia.
    + destruct (binary_round_spec false p ez Hez) as (m2 & e2 & -> & Hm2 & He2 & LB & _).
      apply leb_rounded_up; [lia|lia|lia|].
      destruct sx; cbn [cond_Zopp] in *.
      * rewrite units_opp. unfold units at 2.
        pose proof (pow2_pos (e2 + 1074) ltac:(lia)). nia.
      * apply (LB mx ex Cx). lia.
    + assert (sx = true) as ->.
      { destruct sx; [reflexivity|]. cbn [cond_Zopp] in HS.
        pose proof (units_pos p ez Hez). change (Z.neg p) with (- Zpos p) in HS.
        rewrite units_opp in HS. lia. }
      cbn [cond_Zopp] in HS. change (Z.neg p) with (- Zpos p) in HS.
      rewrite !units_opp in HS.
      destruct (binary_round_spec true p ez Hez) as (m2 & e2 & -> & Hm2 & He2 & _ & UB).
      destruct (UB mx ex Cx ltac:(lia)) as [Hle He].
      apply leb_rounded_down; [lia|lia|lia|lia|exact Hle].
Qed.

(** ** Initial metrics *)

(** C10: the metrics dict created by [Orchestrator.__init__] holds exactly
    processes=0, requirements=0, risks=0, estimate_total=0.0,
    estimate_confidence=0.2, data_quality_score=0.2, process_coverage=0.05,
    requirements_complete=0.05, fsd_completeness=0.05 and
    agent_idle_percentage=0.0, and no other key. *)
Theorem initial_metrics_dict (now : Z) :
  heap (orch_init now) !! metrics (orch_init now) = Some initial_metrics /\
  to_dict (live (orch_init now)) =
    list_to_map
      [ ("processes", VInt 0); ("requirements", VInt 0); ("risks", VInt 0);
        ("estimate_total", VFloat (F64.dec 0 1));
        ("estimate_confidence", VFloat (F64.dec 2 1));
        ("data_quality_score", VFloat (F64.dec 2 1));
        ("process_coverage", VFloat (F64.dec 5 2));
        ("requirements_complete", VFloat (F64.dec 5 2));
        ("fsd_completeness", VFloat (F64.dec 5 2));
        ("agent_idle_percentage", VFloat (F64.dec 0 1)) ].
Proof. split; reflexivity. Qed.

(** ** The scenario *)

(** C1 as stated fails: after the scenario, [requirements_complete] does
    not compare equal to 0.06. *)
Lemma scenario_expected_fails :
  ~ (exists m, run initial_metrics scenario = Ok m /\ scenario_expected m).
Proof.
  intros (m & Hrun & Hexp).
  vm_compute in Hrun. injection Hrun as <-.
  destruct Hexp as (_ & _ & _ & H & _).
  vm_compute in H. discriminate H.
Qed.

(** C1 (amended): from the initial metrics the scenario yields processes=2,
    process_coverage=0.07, requirements=1, data_quality_score=0.4,
    estimate_total=1500 and estimate_confidence=0.7, and
    requirements_complete is the binary64 sum 0.05+0.01, the float next
    above 0.06 (0.060000000000000005), which [==] tells apart from 0.06. *)
Theorem scenario_metrics :
  exists m, run initial_metrics scenario = Ok m /\
    processes m = 2 /\
    process_coverage m = F64.dec 7 2 /\
    requirements m = 1 /\
    requirements_complete m = SFsucc F64.prec F64.emax (F64.dec 6 2) /\
    requirements_complete m = S754_finite false 8646911284551353 (-57) /\
    F64.eqb (requirements_complete m) (F64.dec 6 2) = false /\
    data_quality_score m = NFloat (F64.dec 4 1) /\
    estimate_total m = VInt 1500 /\
    estimate_confidence m = VFloat (F64.dec 7 1).
Proof.
  eexists. split; [vm_compute; reflexivity|].
  vm_compute. repeat split.
Qed.

(** ** The reducer, case by case *)

(** Split on the branch of the [if]/[elif] chain an event type selects. *)
Ltac by_event_type et :=
  destruct (String.eqb et "process.discovered") eqn:?;
  [| destruct (String.eqb et "requirement.identified") eqn:?;
  [| destruct (String.eqb et "risk.identified") eqn:?;
  [| destruct (String.eqb et "estimate.updated") eqn:?;
  [| destruct (String.eqb et "data.quality.score") eqn:?;
  [| destruct (String.eqb et "fsd.section_drafted") eqn:? ]]]]].

Lemma reduce_unhandled (m : Metrics) (evt : event) :
  ~ In (event_type evt) handled_types -> reduce m evt = Ok m.
Proof.
  intros Hn. unfold reduce.
  by_event_type (event_type evt); try reflexivity;
    exfalso; apply Hn;
    match goal with
    | H : String.eqb _ _ = true |- _ => apply String.eqb_eq in H; rewrite H
    end; simpl; tauto.
Qed.

Lemma touched_unhandled (et : string) :
  ~ In et handled_types -> touched et = [].
Proof.
  intros Hn. unfold touched.
  by_event_type et; try reflexivity;
    exfalso; apply Hn;
    match goal with
    | H : String.eqb _ _ = true |- _ => apply String.eqb_eq in H; rewrite H
    end; simpl; tauto.
Qed.

Lemma reduce_untouched (m m' : Metrics) (evt : event) (f : field) :
  reduce m evt = Ok m' ->
  ~ In f (touched (event_type evt)) ->
  get f m' = get f m.
Proof.
  unfold reduce, touched.
  by_event_type (event_type evt); intros Hr Hf;
    try (injection Hr as <-; destruct f; try reflexivity;
         exfalso; apply Hf; simpl; tauto).
  destruct (py_max _ _) as [s|e]; simpl in Hr; [|discriminate].
  injection Hr as <-. destruct f; try reflexivity.
  exfalso; apply Hf; simpl; tauto.
Qed.

(** The live dict after a received event is the reducer's result. *)
Lemma pump_body_reduce {ip : interp} (o : orch) (evt : event) (m' : Metrics) :
  writable ip evt ->
  reduce (live o) evt = Ok m' ->
  exists o', pump_body ip o evt = Ok o' /\
    live o' = m' /\
    metrics o' = metrics o /\
    heap o' = <[metrics o := m']> (heap o) /\
    evlog o' = evlog o ++ [evt] /\
    snaps o' = snaps o /\ dlog o' = dlog o /\ start o' = start o.
Proof.
  intros Hw Hr. unfold pump_body. rewrite Hw. cbn [bind].
  change (live (write_evlog evt o)) with (live o). rewrite Hr. simpl.
  eexists. split; [reflexivity|].
  repeat split. unfold live. simpl. apply lookup_total_insert_eq.
Qed.

(** The body goes through only for an event [json.dumps] accepts, and
    raises what [json.dumps] raises. *)
Lemma pump_body_writable {ip : interp} (o o' : orch) (evt : event) :
  pump_body ip o evt = Ok o' -> writable ip evt.
Proof.
  unfold pump_body, writable.
  destruct (json_dumps ip evt) as [[]|e]; [reflexivity|discriminate].
Qed.

Lemma pump_body_unwritable {ip : interp} (o : orch) (evt : event) (e : exn) :
  json_dumps ip evt = Raise e -> pump_body ip o evt = Raise e.
Proof. intros H. unfold pump_body. rewrite H. reflexivity. Qed.

Lemma pump_body_inv {ip : interp} (o o' : orch) (evt : event) :
  pump_body ip o evt = Ok o' ->
  exists m', reduce (live o) evt = Ok m' /\
    live o' = m' /\
    metrics o' = metrics o /\
    heap o' = <[metrics o := m']> (heap o) /\
    evlog o' = evlog o ++ [evt] /\
    snaps o' = snaps o /\ dlog o' = dlog o /\ start o' = start o.
Proof.
  intros Hp. pose proof (pump_body_writable _ _ _ Hp) as Hw.
  destruct (reduce (live o) evt) as [m'|e] eqn:Hr.
  - destruct (pump_body_reduce o evt m' Hw Hr) as (o1 & Hp1 & H).
    rewrite Hp in Hp1. injection Hp1 as <-. eauto.
  - unfold pump_body in Hp. rewrite Hw in Hp. cbn [bind] in Hp.
    change (live (write_evlog evt o)) with (live o) in Hp.
    rewrite Hr in Hp. discriminate.
Qed.

Lemma too_long_oversized : too_long sample_interp (10 ^ 4300) = true.
Proof.
  unfold too_long. cbn [int_max_str_digits sample_interp].
  apply andb_true_iff. split; [reflexivity|].
  apply Z.leb_le. rewrite Z.abs_eq by (apply Z.pow_nonneg; lia).
  apply Z.le_refl.
Qed.

(** An int too long to be converted, alone in a payload, makes [json.dumps]
    raise ValueError as soon as the event and its payload can be entered. *)
Lemma too_long_unwritable (ip : interp) (room : nat) (et key : string)
    (z : Z) :
  recursion_room ip = S (S room) ->
  too_long ip z = true ->
  json_dumps ip (mk_event et [(key, VInt z)]) = Raise ValueError.
Proof.
  intros Hroom Hz. unfold json_dumps, event_value, mk_event.
  cbn [event_type data ts list_to_map foldr fst snd].
  rewrite insert_empty, map_to_list_singleton, Hroom.
  cbn [encode bind]. rewrite Hz. reflexivity.
Qed.

Lemma oversized_unwritable :
  json_dumps sample_interp oversized = Raise ValueError.
Proof.
  exact (too_long_unwritable sample_interp 898 "plan.updated" "duration_weeks"
           (10 ^ 4300) eq_refl too_long_oversized).
Qed.

(** C5 as stated fails: an event of none of the handled types whose
    payload holds an int of 4301 digits is not written to the event log;
    [json.dumps] raises ValueError on it, under the default limit on
    digits, before anything is written. *)
Lemma unhandled_event_not_persisted :
  ~ (forall (ip : interp) (o : orch) (evt : event),
        ~ In (event_type evt) handled_types ->
        exists o', pump_body ip o evt = Ok o' /\
          evlog o' = evlog o ++ [evt] /\
          live o' = live o /\
          (forall f, get f (live o') = get f (live o))).
Proof.
  intros H.
  destruct (H sample_interp (orch_init 0) oversized) as (o' & Hp & _).
  - change (event_type oversized) with "plan.updated". simpl. intros Hin.
    repeat destruct Hin as [Hin|Hin]; try discriminate Hin. exact Hin.
  - apply pump_body_writable in Hp. unfold writable in Hp.
    rewrite oversized_unwritable in Hp. discriminate Hp.
Qed.

(** C5 (amended): an event changes only the metrics fields its type has
    in the reducer table; an event of none of the six handled types
    (plan.updated, say) that [json.dumps] accepts is written to the event
    log, leaves every metrics field as it was, and does not raise; one that
    [json.dumps] rejects raises what [json.dumps] raises, and neither the
    log nor the metrics see it. *)
Theorem reducer_frame (ip : interp) (o : orch) (evt : event) :
  (forall m' f,
      reduce (live o) evt = Ok m' ->
      ~ In f (touched (event_type evt)) ->
      get f m' = get f (live o)) /\
  (~ In (event_type evt) handled_types ->
   writable ip evt ->
   exists o', pump_body ip o evt = Ok o' /\
     evlog o' = evlog o ++ [evt] /\
     live o' = live o /\
     (forall f, get f (live o') = get f (live o))) /\
  (forall e rest,
      json_dumps ip evt = Raise e ->
      pump ip o (Received evt :: rest) = Raised e o).
Proof.
  split; [|split].
  - intros m' f. apply reduce_untouched.
  - intros Hn Hw.
    destruct (pump_body_reduce o evt (live o) Hw (reduce_unhandled _ _ Hn))
      as (o' & Hp & Hl & _ & _ & He & _).
    exists o'. rewrite Hl. auto.
  - intros e rest He. cbn [pump].
    rewrite (pump_body_unwritable o evt e He), He. reflexivity.
Qed.

Lemma reducer_frame_witness :
  let o := orch_init 0 in
  let evt := mk_event "plan.updated" [("duration_weeks", VInt 16)] in
  exists o', pump_body sample_interp o evt = Ok o' /\
     evlog o' = evlog o ++ [evt] /\
     live o' = live o /\
     (forall f, get f (live o') = get f (live o)).
Proof.
  intros o evt. apply (proj1 (proj2 (reducer_frame sample_interp o evt))).
  - simpl. intros H. repeat destruct H as [H|H]; try discriminate H. exact H.
  - vm_compute. reflexivity.
Defined.

(** C6: an estimate.updated event never raises; without total_hours
    (respectively confidence) in its payload, estimate_total (respectively
    estimate_confidence) keeps its value, and with it takes the payload's.
    Whatever the event, a payload without its optional field raises
    nothing. *)
Theorem missing_fields_default (m : Metrics) (evt : event) :
  (event_type evt = "estimate.updated" ->
   exists m', reduce m evt = Ok m' /\
     estimate_total m' = default (estimate_total m) (data evt !! "total_hours") /\
     estimate_confidence m' =
       default (estimate_confidence m) (data evt !! "confidence") /\
     (data evt !! "total_hours" = None -> estimate_total m' = estimate_total m) /\
     (data evt !! "confidence" = None ->
      estimate_confidence m' = estimate_confidence m)) /\
  (data evt !! "score" = None -> exists m', reduce m evt = Ok m').
Proof.
  split.
  - intros Het. unfold reduce. rewrite Het. simpl.
    eexists. split; [reflexivity|]. simpl.
    repeat split; intros ->; reflexivity.
  - intros Hs. unfold reduce. rewrite Hs.
    by_event_type (event_type evt); eauto.
Qed.

Lemma missing_fields_default_witness :
  let evt := mk_event "estimate.updated" [("confidence", VFloat (F64.dec 7 1))] in
  exists m', reduce initial_metrics evt = Ok m' /\
     estimate_total m' = default (estimate_total initial_metrics) (data evt !! "total_hours") /\
     estimate_confidence m' =
       default (estimate_confidence initial_metrics) (data evt !! "confidence") /\
     (data evt !! "total_hours" = None ->
      estimate_total m' = estimate_total initial_metrics) /\
     (data evt !! "confidence" = None ->
      estimate_confidence m' = estimate_confidence initial_metrics).
Proof.
  intros evt. apply (proj1 (missing_fields_default initial_metrics evt)).
  reflexivity.
Defined.

(** ** The clock and the consume loop *)

Lemma td_seconds_range (x : Z) : 0 <= td_seconds x < 86400.
Proof. unfold td_seconds. apply Z.mod_pos_bound. lia. Qed.

(** The seconds component and the microseconds rebuild the time of day. *)
Lemma td_seconds_of_day (x : Z) :
  x mod 86400000000 = x mod 1000000 + 1000000 * td_seconds x.
Proof.
  unfold td_seconds.
  change 86400000000 with (1000000 * 86400).
  rewrite Z.rem_mul_r by lia. reflexivity.
Qed.

Lemma stop_check (x : Z) :
  (td_seconds x >? RUNTIME_SECONDS) = true <-> 31000000 <= x mod 86400000000.
Proof.
  unfold RUNTIME_SECONDS. rewrite td_seconds_of_day.
  pose proof (Z.mod_pos_bound x 1000000 ltac:(lia)).
  pose proof (td_seconds_range x).
  rewrite Z.gtb_ltb, Z.ltb_lt. lia.
Qed.

Lemma mod_day_advance (x d : Z) :
  0 <= d -> x mod 86400000000 + d < 86400000000 ->
  (x + d) mod 86400000000 = x mod 86400000000 + d.
Proof.
  intros Hd Hlt.
  pose proof (Z.mod_pos_bound x 86400000000 ltac:(lia)).
  rewrite (Z.div_mod x 86400000000) at 1 by lia.
  replace (86400000000 * (x / 86400000000) + x mod 86400000000 + d)
    with (x mod 86400000000 + d + (x / 86400000000) * 86400000000) by lia.
  rewrite Z.mod_add by lia. apply Z.mod_small. lia.
Qed.

Lemma day_at_start (o : orch) : day o (start o) = 1.
Proof. unfold day. rewrite Z.sub_diag. reflexivity. Qed.

Lemma day_range (o : orch) (now : Z) : 1 <= day o now <= 5.
Proof.
  unfold day. pose proof (td_seconds_range (now - start o)).
  assert (0 <= td_seconds (now - start o) / 6) by (apply Z.div_pos; lia).
  lia.
Qed.

Lemma day_capped (o : orch) (now : Z) :
  24000000 <= now - start o < 86400000000 -> day o now = 5.
Proof.
  intros H. unfold day, td_seconds.
  assert (24 <= (now - start o) / 1000000 < 86400).
  { split.
    - apply Z.div_le_lower_bound; lia.
    - apply Z.div_lt_upper_bound; lia. }
  rewrite Z.mod_small by lia.
  assert (4 <= (now - start o) / 1000000 / 6)
    by (apply Z.div_le_lower_bound; lia).
  lia.
Qed.

(** C8: [day()] is 1 at elapsed time 0 and never above 5, but it is not 5
    for every elapsed time beyond the five-day window: it reads the seconds
    component of the elapsed time, which starts again from 0 after 24 hours,
    so that one day after the start [day()] is 1. *)
Theorem day_after_24_hours :
  let o := orch_init 0 in
  let now := 86400 * 1000000 in
  5 * 6 * 1000000 < now - start o /\
  td_seconds (now - start o) = 0 /\
  day o now = 1.
Proof. vm_compute. repeat split. Qed.

(** With an empty bus, the loop leaves once the time of day of the elapsed
    time reaches 31 s, after at most [n] polls if it is [n] timeouts away. *)
Lemma pump_timeouts_stop {ip : interp} (n : nat) :
  forall (times : list Z) (t : Z) (o : orch),
    ticks t times ->
    (t - start o) mod 86400000000 < 31000000 ->
    31000000 - (t - start o) mod 86400000000 <= Z.of_nat n * 200000 ->
    (n <= length times)%nat ->
    pump ip o (map TimedOut times) = Stopped o.
Proof.
  induction n as [|n IH]; intros times t o Ht Hr Hn Hlen.
  - lia.
  - destruct times as [|t1 rest]; simpl in Hlen; [lia|].
    destruct Ht as [Hd Hrest]. simpl.
    assert (Hadv : (t1 - start o) mod 86400000000
                   = (t - start o) mod 86400000000 + (t1 - t)).
    { replace (t1 - start o) with (t - start o + (t1 - t)) by lia.
      apply mod_day_advance; lia. }
    destruct (td_seconds (t1 - start o) >? RUNTIME_SECONDS) eqn:Hc;
      [reflexivity|].
    assert (Hlt : (t1 - start o) mod 86400000000 < 31000000).
    { destruct (Z_lt_le_dec ((t1 - start o) mod 86400000000) 31000000)
        as [|Hge]; [assumption|].
      apply stop_check in Hge. congruence. }
    apply (IH rest t1 o Hrest Hlt); lia.
Qed.

(** C7: with an empty bus and the run duration already exceeded when the
    consume loop starts, the loop leaves through [break] within 156 polls,
    each of them a timeout; the orchestrator is as it was: no event was
    processed, nothing was logged, no exception was raised. *)
Theorem pump_stops_on_empty_bus (ip : interp) (o : orch) (t0 : Z) (times : list Z) :
  RUNTIME_SECONDS * 1000000 < t0 - start o ->
  ticks t0 times ->
  (156 <= length times)%nat ->
  pump ip o (map TimedOut times) = Stopped o.
Proof.
  intros _ Ht Hlen.
  pose proof (Z.mod_pos_bound (t0 - start o) 86400000000 ltac:(lia)) as Hb.
  destruct (Z_lt_le_dec ((t0 - start o) mod 86400000000) 31000000)
    as [Hlt|Hge].
  - apply (pump_timeouts_stop 155 times t0 o Ht Hlt); lia.
  - destruct times as [|t1 rest]; simpl in Hlen; [lia|].
    destruct Ht as [Hd Hrest]. simpl.
    destruct (td_seconds (t1 - start o) >? RUNTIME_SECONDS) eqn:Hc;
      [reflexivity|].
    assert (Hlt : (t1 - start o) mod 86400000000 < 31000000).
    { destruct (Z_lt_le_dec ((t1 - start o) mod 86400000000) 31000000)
        as [|Hge']; [assumption|].
      apply stop_check in Hge'. congruence. }
    pose proof (Z.mod_pos_bound (t1 - start o) 86400000000 ltac:(lia)).
    apply (pump_timeouts_stop 155 rest t1 o Hrest Hlt); lia.
Qed.

Lemma pump_stops_on_empty_bus_witness :
  let o := orch_init 0 in
  let times := map (fun k => 30500000 + 200000 * Z.of_nat k) (seq 1 156) in
  pump sample_interp o (map TimedOut times) = Stopped o.
Proof.
  intros o times.
  apply (pump_stops_on_empty_bus sample_interp o 30500000 times).
  - vm_compute. reflexivity.
  - vm_compute. repeat split; discriminate.
  - vm_compute. apply le_n.
Defined.

(** ** Snapshots and the store *)

Lemma steps_trans {ip : interp} (o1 o2 o3 : orch) : steps ip o1 o2 -> steps ip o2 o3 -> steps ip o1 o3.
Proof.
  induction 1 as [|a b c Hab Hbc IH]; [trivial|].
  intros Hc. apply (steps_cons a b o3 Hab). apply IH, Hc.
Qed.

Lemma wf_init (t : Z) : wf (orch_init t).
Proof.
  unfold wf. simpl. split; [|split].
  - rewrite lookup_singleton_eq. eauto.
  - constructor.
  - reflexivity.
Qed.

(** The lines read the same in two stores that agree on the snapshots'
    objects. *)
Lemma lines_agree (h h' : gmap loc Metrics) (ss : list snap) :
  Forall (fun s => h' !! snap_metrics s = h !! snap_metrics s) ss ->
  map (line_of h') ss = map (line_of h) ss.
Proof.
  induction 1 as [|s ss Hs _ IH]; simpl; [reflexivity|].
  f_equal; [|exact IH].
  unfold line_of. f_equal. rewrite !lookup_total_alt, Hs. reflexivity.
Qed.

(** What one step does to the store: the live dict stays where it is, every
    other allocated object keeps its content, and the new snapshots refer to
    newly allocated objects that hold the live metrics of that instant. *)
Lemma step_store {ip : interp} (o o' : orch) :
  wf o -> step ip o o' ->
  metrics o' = metrics o /\
  is_Some (heap o' !! metrics o') /\
  (forall l, l <> metrics o -> is_Some (heap o !! l) ->
             heap o' !! l = heap o !! l) /\
  exists new,
    snaps o' = snaps o ++ new /\
    dlog o' = dlog o ++ map (line_of (heap o')) new /\
    Forall (fun s => snap_metrics s <> metrics o /\
                     heap o !! snap_metrics s = None /\
                     heap o' !! snap_metrics s = Some (live o')) new.
Proof.
  intros (Hm & Hs & Hd) Hstep. destruct Hstep as [o evt o' Hp | o now avg].
  - apply pump_body_inv in Hp
      as (m' & _ & Hl & Hmet & Hh & _ & Hsn & Hdl & _).
    rewrite Hmet, Hh. split; [reflexivity|]. split.
    { rewrite lookup_insert_eq. eauto. }
    split.
    { intros l Hne _. apply lookup_insert_ne. congruence. }
    exists []. rewrite !app_nil_r. repeat split; [assumption..|constructor].
  - unfold dashboards_body, dict_copy. simpl.
    set (m := set_agent_idle_percentage (idle_percentage avg) (live o)).
    set (h1 := <[metrics o := m]> (heap o)).
    set (l := fresh (dom h1)).
    assert (Hl : l ∉ dom h1) by apply is_fresh.
    assert (Hml : metrics o ∈ dom h1).
    { apply elem_of_dom. unfold h1. rewrite lookup_insert_eq. eauto. }
    assert (Hne : l <> metrics o) by (intros E; rewrite E in Hl; tauto).
    assert (Hh1 : h1 !!! metrics o = m)
      by (unfold h1; apply lookup_total_insert_eq).
    split; [reflexivity|]. split.
    { rewrite lookup_insert_ne by exact Hne.
      apply elem_of_dom. exact Hml. }
    split.
    { intros l0 Hl0 Hsome.
      assert (l0 ∈ dom h1).
      { apply elem_of_dom. unfold h1.
        rewrite lookup_insert_ne by congruence. exact Hsome. }
      rewrite lookup_insert_ne by (intros E; rewrite E in Hl; tauto).
      unfold h1. apply lookup_insert_ne. congruence. }
    eexists [_]. split; [reflexivity|]. split; [reflexivity|].
    constructor; [|constructor]. simpl. split; [exact Hne|]. split.
    + apply not_elem_of_dom. intros Hin. apply Hl.
      unfold h1. rewrite dom_insert_L. apply elem_of_union. right. exact Hin.
    + rewrite lookup_insert_eq. f_equal.
      unfold live. simpl.
      rewrite lookup_total_insert_ne by exact Hne. reflexivity.
Qed.

Lemma step_wf {ip : interp} (o o' : orch) : wf o -> step ip o o' -> wf o'.
Proof.
  intros Hwf Hstep.
  destruct (step_store o o' Hwf Hstep)
    as (Hmet & Hlive & Hframe & new & Hsn & Hdl & Hnew).
  destruct Hwf as (Hm & Hs & Hd).
  assert (Hold : Forall (fun s => heap o' !! snap_metrics s
                                  = heap o !! snap_metrics s) (snaps o)).
  { eapply Forall_impl; [exact Hs|]. simpl. intros s [Hsome Hne].
    apply Hframe; assumption. }
  split; [exact Hlive|]. split.
  - rewrite Hsn. apply Forall_app. split.
    + rewrite List.Forall_forall in Hs, Hold. apply List.Forall_forall.
      intros s Hin. rewrite (Hold s Hin), Hmet. apply Hs, Hin.
    + eapply Forall_impl; [exact Hnew|]. simpl.
      intros s (Hne & _ & Hsome). rewrite Hsome, Hmet. eauto.
  - rewrite Hdl, Hsn, map_app, Hd. f_equal.
    symmetry. apply lines_agree, Hold.
Qed.

Lemma steps_wf {ip : interp} (o o' : orch) : wf o -> steps ip o o' -> wf o'.
Proof.
  intros Hwf Hsteps. induction Hsteps as [|a b c Hab _ IH]; [exact Hwf|].
  apply IH. eapply step_wf; eassumption.
Qed.

(** An object a snapshot refers to is never written again, and its line
    stays in the snapshot log. *)
Lemma steps_keep_snapshot {ip : interp} (o o' : orch) (s : snap) :
  wf o -> steps ip o o' -> In s (snaps o) ->
  In s (snaps o') /\
  snap_metrics s <> metrics o' /\
  heap o' !! snap_metrics s = heap o !! snap_metrics s /\
  In (line_of (heap o) s) (dlog o').
Proof.
  intros Hwf Hsteps. induction Hsteps as [o|a b c Hab Hbc IH]; intros Hin.
  - destruct Hwf as (_ & Hs & Hd).
    rewrite List.Forall_forall in Hs. destruct (Hs s Hin) as [_ Hne].
    repeat split; try assumption.
    rewrite Hd. apply in_map, Hin.
  - destruct (step_store a b Hwf Hab)
      as (Hmet & _ & Hframe & new & Hsn & _ & _).
    pose proof Hwf as (_ & Hs & _).
    rewrite List.Forall_forall in Hs. destruct (Hs s Hin) as [Hsome Hne].
    assert (Hin' : In s (snaps b)) by (rewrite Hsn; apply in_or_app; auto).
    destruct (IH (step_wf a b Hwf Hab) Hin') as (H1 & H2 & H3 & H4).
    assert (Heq : heap b !! snap_metrics s = heap a !! snap_metrics s)
      by (apply Hframe; assumption).
    repeat split; try assumption.
    + rewrite H3. exact Heq.
    + unfold line_of in *. rewrite !lookup_total_alt in *.
      rewrite <- Heq. exact H4.
Qed.

(** The live dict after a snapshot: only the idle percentage was set. *)
Lemma dashboards_live (o : orch) (now : Z) (avg_comp : float64) :
  live (dashboards_body o now avg_comp)
  = set_agent_idle_percentage (idle_percentage avg_comp) (live o).
Proof.
  unfold dashboards_body, dict_copy, live. simpl.
  set (m := set_agent_idle_percentage _ _).
  set (h1 := <[metrics o := m]> (heap o)).
  assert (Hl : fresh (dom h1) ∉ dom h1) by apply is_fresh.
  assert (Hne : fresh (dom h1) <> metrics o).
  { intros E. apply Hl. rewrite E. apply elem_of_dom.
    unfold h1. rewrite lookup_insert_eq. eauto. }
  rewrite lookup_total_insert_ne by exact Hne.
  unfold h1. apply lookup_total_insert_eq.
Qed.

(** C9: the ["metrics"] entry of a snapshot is a new dict object holding the
    metrics of the instant the snapshot is taken, and that is what its line
    in the snapshot log shows; whatever the reducer and the idle update do
    afterwards, the object is not the live dict, keeps its content, and its
    line stays in the log. *)
Theorem snapshot_is_a_copy (ip : interp)
    (t now : Z) (avg_comp : float64) (o o1 o2 : orch) :
  steps ip (orch_init t) o ->
  o1 = dashboards_body o now avg_comp ->
  steps ip o1 o2 ->
  exists s,
    snaps o1 = snaps o ++ [s] /\
    dlog o1 = dlog o ++ [line_of (heap o1) s] /\
    line_metrics (line_of (heap o1) s) = live o1 /\
    live o1 =
      set_agent_idle_percentage (idle_percentage avg_comp) (live o) /\
    heap o1 !! snap_metrics s = Some (live o1) /\
    snap_metrics s <> metrics o2 /\
    heap o2 !! snap_metrics s = Some (live o1) /\
    In s (snaps o2) /\
    In (line_of (heap o1) s) (dlog o2).
Proof.
  intros Hreach -> Hsteps.
  pose proof (steps_wf _ _ (wf_init t) Hreach) as Hwf.
  pose proof (@step_dashboards ip o now avg_comp) as Hstep.
  destruct (step_store _ _ Hwf Hstep)
    as (Hmet & _ & _ & new & Hsn & Hdl & Hnew).
  pose proof (step_wf _ _ Hwf Hstep) as Hwf1.
  set (o1 := dashboards_body o now avg_comp) in *.
  assert (Hone : exists s, new = [s]).
  { assert (Hlen : length (snaps o1) = S (length (snaps o))).
    { unfold o1, dashboards_body, dict_copy. simpl.
      rewrite length_app. simpl. lia. }
    rewrite Hsn, length_app in Hlen.
    destruct new as [|s [|s' new]]; simpl in Hlen; try lia. eauto. }
  destruct Hone as [s ->]. exists s.
  apply Forall_inv in Hnew. destruct Hnew as (Hne & Hfresh & Hcopy).
  assert (Hin : In s (snaps o1)) by (rewrite Hsn; apply in_or_app; simpl; auto).
  destruct (steps_keep_snapshot o1 o2 s Hwf1 Hsteps Hin)
    as (K1 & K2 & K3 & K4).
  pose proof (dashboards_live o now avg_comp) as Hlive. fold o1 in Hlive.
  repeat split; try assumption.
  - unfold line_of. cbn [line_metrics].
    rewrite lookup_total_alt, Hcopy. reflexivity.
  - rewrite K3. exact Hcopy.
Qed.

Lemma snapshot_is_a_copy_witness :
  let o := orch_init 0 in
  let o1 := dashboards_body o 1000000 (F64.dec 0 1) in
  let o2 := match pump_body sample_interp o1 (mk_event "process.discovered" []) with
            | Ok o' => o'
            | Raise _ => o1
            end in
  processes (live o2) = 1 /\
  exists s,
    snaps o1 = snaps o ++ [s] /\
    dlog o1 = dlog o ++ [line_of (heap o1) s] /\
    line_metrics (line_of (heap o1) s) = live o1 /\
    live o1 =
      set_agent_idle_percentage (idle_percentage (F64.dec 0 1)) (live o) /\
    heap o1 !! snap_metrics s = Some (live o1) /\
    snap_metrics s <> metrics o2 /\
    heap o2 !! snap_metrics s = Some (live o1) /\
    In s (snaps o2) /\
    In (line_of (heap o1) s) (dlog o2).
Proof.
  intros o o1 o2. split; [vm_compute; reflexivity|].
  apply (snapshot_is_a_copy sample_interp 0 1000000 (F64.dec 0 1) o o1 o2).
  - apply steps_refl.
  - reflexivity.
  - apply (steps_cons o1 o2 o2); [|apply steps_refl].
    apply (step_pump o1 (mk_event "process.discovered" [])).
    vm_compute. reflexivity.
Defined.

(** ** Reachable metrics: ceilings and monotone fields *)

Lemma run_reachable (evts : list event) :
  forall m m', reachable m -> run m evts = Ok m' -> reachable m'.
Proof.
  induction evts as [|evt rest IH]; simpl; intros m m' Hm Hrun.
  - injection Hrun as <-. exact Hm.
  - destruct (reduce m evt) as [m1|e] eqn:Hr; simpl in Hrun; [|discriminate].
    apply (IH m1 m'); [|exact Hrun].
    apply (reach_reduce m evt m1 Hm Hr).
Qed.

Lemma run_app (evts1 evts2 : list event) (m : Metrics) :
  run m (evts1 ++ evts2) = (m1 <- run m evts1 ;; run m1 evts2).
Proof.
  revert m. induction evts1 as [|evt rest IH]; simpl; intros m; [reflexivity|].
  destruct (reduce m evt) as [m1|e]; simpl; [apply IH|reflexivity].
Qed.

(** What the orchestrator's steps make of the live dict is reachable. *)
Lemma steps_reachable {ip : interp} (o o' : orch) :
  reachable (live o) -> steps ip o o' -> reachable (live o').
Proof.
  intros Hm Hsteps. induction Hsteps as [|a b c Hab _ IH]; [exact Hm|].
  apply IH. destruct Hab as [o evt o' Hp | o now avg].
  - apply pump_body_inv in Hp as (m' & Hr & Hl & _).
    rewrite Hl. apply (reach_reduce _ _ _ Hm Hr).
  - rewrite dashboards_live. apply reach_idle, Hm.
Qed.

(** [min(cap, y)] is at most [cap]. *)
Lemma py_min_le_cap (cap y : float64) :
  F64.leb cap cap = true -> F64.leb (py_min cap y) cap = true.
Proof.
  intros Hcap. unfold py_min.
  destruct (F64.ltb y cap) eqn:Hlt; [|exact Hcap].
  apply XRealFacts.ltb_leb, Hlt.
Qed.

Lemma reduce_capped (m m' : Metrics) (evt : event) :
  capped m -> reduce m evt = Ok m' -> capped m'.
Proof.
  intros (H1 & H2 & H3). unfold reduce.
  by_event_type (event_type evt); intros Hr;
    try (injection Hr as <-; unfold capped; simpl;
         repeat split; try assumption;
         apply py_min_le_cap; vm_compute; reflexivity).
  destruct (py_max _ _) as [s|e]; simpl in Hr; [|discriminate].
  injection Hr as <-. unfold capped. simpl. auto.
Qed.

Lemma reachable_capped (m : Metrics) : reachable m -> capped m.
Proof.
  induction 1 as [|m evt m' _ IH Hr|m avg _ IH].
  - vm_compute. repeat split.
  - apply (reduce_capped m m' evt IH Hr).
  - exact IH.
Qed.

(** C3: whatever sequence of events the reducer applies from the initial
    metrics, process_coverage and requirements_complete are at most 0.95 and
    fsd_completeness is at most 0.98. *)
Theorem coverage_never_exceeds_ceiling (evts : list event) (m : Metrics) :
  run initial_metrics evts = Ok m ->
  F64.leb (process_coverage m) (F64.dec 95 2) = true /\
  F64.leb (requirements_complete m) (F64.dec 95 2) = true /\
  F64.leb (fsd_completeness m) (F64.dec 98 2) = true.
Proof.
  intros Hrun. apply reachable_capped.
  apply (run_reachable evts initial_metrics m reach_init Hrun).
Qed.

Lemma coverage_never_exceeds_ceiling_witness :
  exists m, run initial_metrics scenario = Ok m /\
    F64.leb (process_coverage m) (F64.dec 95 2) = true /\
    F64.leb (requirements_complete m) (F64.dec 95 2) = true /\
    F64.leb (fsd_completeness m) (F64.dec 98 2) = true.
Proof.
  eexists. split; [vm_compute; reflexivity|].
  apply (coverage_never_exceeds_ceiling scenario).
  vm_compute. reflexivity.
Defined.

(** From the ninetieth process.discovered event on, process_coverage sits at
    its ceiling, however many more events follow. *)
Lemma ceiling_fixed :
  py_min (F64.dec 95 2) (F64.add (F64.dec 95 2) (F64.dec 1 2)) = F64.dec 95 2.
Proof. vm_compute. reflexivity. Qed.

Lemma ceiling_reached (n : nat) :
  (90 <= n)%nat ->
  run initial_metrics (repeat (mk_event "process.discovered" []) n)
  = Ok (set_process_coverage (F64.dec 95 2)
          (set_processes (Z.of_nat n) initial_metrics)).
Proof.
  induction 1 as [|n Hle IH].
  - vm_compute. reflexivity.
  - change (repeat ?a (S n)) with (a :: repeat a n).
    rewrite repeat_cons, run_app, IH.
    cbn [bind run]. unfold reduce.
    cbn [event_type mk_event String.eqb Ascii.eqb Bool.eqb].
    cbn [bind processes process_coverage set_processes set_process_coverage].
    rewrite ceiling_fixed.
    unfold set_process_coverage, set_processes. cbn.
    do 2 f_equal. lia.
Qed.

(** The values of a capped field stay within its list, and one more step
    never lowers them. *)
Lemma in_list_In (x : float64) (l : list float64) :
  in_list x l = true <-> In x l.
Proof.
  unfold in_list. rewrite existsb_exists. split.
  - intros (y & Hin & Heq). apply bool_decide_eq_true in Heq. congruence.
  - intros Hin. exists x. split; [exact Hin|]. apply bool_decide_eq_true.
    reflexivity.
Qed.

Lemma orbit_closed (cap inc : float64) (l : list float64) :
  forallb (fun x => in_list (bump cap inc x) l
                    && F64.leb x (bump cap inc x)) l = true ->
  forall x, In x l ->
    In (bump cap inc x) l /\ F64.leb x (bump cap inc x) = true.
Proof.
  intros Hall x Hin. rewrite forallb_forall in Hall.
  specialize (Hall x Hin). apply andb_true_iff in Hall as [H1 H2].
  split; [apply in_list_In, H1|exact H2].
Qed.

Lemma coverage_step (x : float64) :
  In x coverage_values ->
  In (bump (F64.dec 95 2) (F64.dec 1 2) x) coverage_values /\
  F64.leb x (bump (F64.dec 95 2) (F64.dec 1 2) x) = true.
Proof. apply orbit_closed. vm_compute. reflexivity. Qed.

Lemma fsd_step (x : float64) :
  In x fsd_values ->
  In (bump (F64.dec 98 2) (F64.dec 2 2) x) fsd_values /\
  F64.leb x (bump (F64.dec 98 2) (F64.dec 2 2) x) = true.
Proof. apply orbit_closed. vm_compute. reflexivity. Qed.

Lemma listed_not_nan (l : list float64) (x : float64) :
  forallb (fun y => F64.leb y y) l = true -> In x l -> F64.leb x x = true.
Proof. intros Hall Hin. rewrite forallb_forall in Hall. apply Hall, Hin. Qed.

Lemma coverage_not_nan (x : float64) :
  In x coverage_values -> F64.leb x x = true.
Proof. apply listed_not_nan. vm_compute. reflexivity. Qed.

Lemma fsd_not_nan (x : float64) : In x fsd_values -> F64.leb x x = true.
Proof. apply listed_not_nan. vm_compute. reflexivity. Qed.

(** [max(a, b)] is a number that is at least [a], when [a] is not NaN. *)
Lemma py_max_ge (a s : num) (b : value) :
  py_max a b = Ok s -> num_leb a a = true ->
  num_leb a s = true /\ num_leb s s = true.
Proof.
  unfold py_max. destruct (as_num b) as [n|]; [|discriminate].
  intros Hs Ha. injection Hs as <-.
  unfold num_leb, num_gtb in *.
  destruct (XReal.gtb (num_x n) (num_x a)) eqn:Hgt; [|auto].
  apply XRealFacts.gtb_leb in Hgt. split; [exact Hgt|].
  apply (XRealFacts.leb_refl_r _ _ Hgt).
Qed.

Lemma reduce_tracked (m m' : Metrics) (evt : event) :
  tracked m -> reduce m evt = Ok m' ->
  tracked m' /\ monotone_fields_le m m'.
Proof.
  intros (H1 & H2 & H3 & H4).
  pose proof (coverage_not_nan _ H1) as N1.
  pose proof (coverage_not_nan _ H2) as N2.
  pose proof (fsd_not_nan _ H3) as N3.
  unfold reduce.
  by_event_type (event_type evt); intros Hr.
  - injection Hr as <-. unfold tracked, monotone_fields_le. simpl.
    destruct (coverage_step _ H1) as [Hin Hle]. unfold bump in Hin, Hle.
    repeat split; try assumption; lia.
  - injection Hr as <-. unfold tracked, monotone_fields_le. simpl.
    destruct (coverage_step _ H2) as [Hin Hle]. unfold bump in Hin, Hle.
    repeat split; try assumption; lia.
  - injection Hr as <-. unfold tracked, monotone_fields_le. simpl.
    repeat split; try assumption; lia.
  - injection Hr as <-. unfold tracked, monotone_fields_le. simpl.
    repeat split; try assumption; lia.
  - destruct (py_max _ _) as [s|e] eqn:Hmax; simpl in Hr; [|discriminate].
    injection Hr as <-. unfold tracked, monotone_fields_le. simpl.
    destruct (py_max_ge _ _ _ Hmax H4) as [Hle Hs].
    repeat split; try assumption; lia.
  - injection Hr as <-. unfold tracked, monotone_fields_le. simpl.
    destruct (fsd_step _ H3) as [Hin Hle]. unfold bump in Hin, Hle.
    repeat split; try assumption; lia.
  - injection Hr as <-. unfold tracked, monotone_fields_le.
    repeat split; try assumption; lia.
Qed.

Lemma reachable_tracked (m : Metrics) : reachable m -> tracked m.
Proof.
  induction 1 as [|m evt m' _ IH Hr|m avg _ IH].
  - unfold tracked. repeat split;
      try (apply in_list_In); vm_compute; reflexivity.
  - apply (reduce_tracked m m' evt IH Hr).
  - exact IH.
Qed.

(** A capped field never goes down: within its ceiling, [min(cap, x + inc)]
    is at least [x] for every binary64 [x] and positive increment. *)
Lemma bump_above (cap x : float64) (mc : positive) (ec : Z) :
  binary64 x -> bounded F64.prec F64.emax mc ec = true ->
  F64.leb x cap = true ->
  F64.leb x (bump cap (S754_finite false mc ec) x) = true.
Proof.
  intros Hx Hc Hcap. unfold bump, py_min.
  destruct (F64.ltb _ cap); [|exact Hcap].
  apply add_above; [exact Hx|exact Hc|].
  apply (XRealFacts.leb_refl_l _ _ Hcap).
Qed.

Lemma increments :
  exists m1 e1 m2 e2,
    F64.dec 1 2 = S754_finite false m1 e1 /\
    bounded F64.prec F64.emax m1 e1 = true /\
    F64.dec 2 2 = S754_finite false m2 e2 /\
    bounded F64.prec F64.emax m2 e2 = true.
Proof.
  do 4 eexists. repeat split; vm_compute; reflexivity.
Qed.

Lemma listed_binary64 (l : list float64) (x : float64) :
  forallb (valid_binary F64.prec F64.emax) l = true -> In x l -> binary64 x.
Proof. intros Hall Hin. rewrite forallb_forall in Hall. apply Hall, Hin. Qed.

(** Every metrics dict the orchestrator can hold is within its ceilings. *)
Lemma reachable_within_ceilings (m : Metrics) :
  reachable m -> within_ceilings m.
Proof.
  intros Hm. pose proof (reachable_capped m Hm) as Hc.
  destruct (reachable_tracked m Hm) as (H1 & H2 & H3 & H4).
  repeat split; try apply Hc; try exact H4.
  - apply (listed_binary64 coverage_values); [vm_compute; reflexivity|exact H1].
  - apply (listed_binary64 coverage_values); [vm_compute; reflexivity|exact H2].
  - apply (listed_binary64 fsd_values); [vm_compute; reflexivity|exact H3].
Qed.

(** The ceiling cannot be dropped from the hypotheses: a dict with
    process_coverage above it, at 0.97, which the orchestrator never holds,
    is brought down to 0.95 by a process.discovered event. *)
Lemma monotone_fails_above_ceiling :
  ~ (forall (m m' : Metrics) (evt : event),
        reduce m evt = Ok m' -> monotone_fields_le m m').
Proof.
  intros H.
  specialize (H (set_process_coverage (F64.dec 97 2) initial_metrics) _
                (mk_event "process.discovered" []) eq_refl).
  destruct H as (_ & _ & _ & H & _).
  vm_compute in H. discriminate H.
Qed.

(** C2: on every metrics dict whose capped fields are binary64 numbers
    within their ceilings and whose quality score is not NaN, which covers
    every dict the orchestrator can hold, one application of the reducer
    leaves processes, requirements, risks, process_coverage,
    requirements_complete, fsd_completeness and data_quality_score at least
    as large as they were, whatever the event. *)
Theorem monotone_fields_never_decrease (m m' : Metrics) (evt : event) :
  within_ceilings m ->
  reduce m evt = Ok m' ->
  monotone_fields_le m m'.
Proof.
  intros (B1 & B2 & B3 & (C1 & C2 & C3) & N).
  destruct increments as (m1 & e1 & m2 & e2 & E1 & V1 & E2 & V2).
  pose proof (XRealFacts.leb_refl_l _ _ C1) as N1.
  pose proof (XRealFacts.leb_refl_l _ _ C2) as N2.
  pose proof (XRealFacts.leb_refl_l _ _ C3) as N3.
  unfold reduce.
  by_event_type (event_type evt); intros Hr.
  - injection Hr as <-. unfold monotone_fields_le. simpl.
    pose proof (bump_above _ _ _ _ B1 V1 C1) as Hle.
    rewrite <- E1 in Hle. unfold bump in Hle.
    repeat split; try assumption; lia.
  - injection Hr as <-. unfold monotone_fields_le. simpl.
    pose proof (bump_above _ _ _ _ B2 V1 C2) as Hle.
    rewrite <- E1 in Hle. unfold bump in Hle.
    repeat split; try assumption; lia.
  - injection Hr as <-. unfold monotone_fields_le. simpl.
    repeat split; try assumption; lia.
  - injection Hr as <-. unfold monotone_fields_le. simpl.
    repeat split; try assumption; lia.
  - destruct (py_max _ _) as [s|e] eqn:Hmax; simpl in Hr; [|discriminate].
    injection Hr as <-. unfold monotone_fields_le. simpl.
    destruct (py_max_ge _ _ _ Hmax N) as [Hle Hs].
    repeat split; try assumption; lia.
  - injection Hr as <-. unfold monotone_fields_le. simpl.
    pose proof (bump_above _ _ _ _ B3 V2 C3) as Hle.
    rewrite <- E2 in Hle. unfold bump in Hle.
    repeat split; try assumption; lia.
  - injection Hr as <-. unfold monotone_fields_le.
    repeat split; try assumption; lia.
Qed.

Lemma monotone_fields_never_decrease_witness :
  let m := set_process_coverage (F64.dec 5 1) initial_metrics in
  let evt := mk_event "process.discovered" [] in
  monotone_fields_le m
    (set_process_coverage (F64.add (F64.dec 5 1) (F64.dec 1 2))
       (set_processes 1 m)).
Proof.
  intros m evt.
  apply (monotone_fields_never_decrease m _ evt).
  - repeat split; vm_compute; reflexivity.
  - vm_compute. reflexivity.
Defined.

(** The idle update touches none of the monotone fields. *)
Lemma idle_update_keeps_fields (m : Metrics) (avg_comp : float64) (f : field) :
  f <> f_agent_idle_percentage ->
  get f (set_agent_idle_percentage (idle_percentage avg_comp) m) = get f m.
Proof. intros Hf. destruct f; try reflexivity. contradiction. Qed.

(** The two estimate fields take whatever the payload holds, a lower value
    included. *)
Lemma estimates_may_decrease :
  let evts := [ mk_event "estimate.updated"
                  [("total_hours", VInt 1500);
                   ("confidence", VFloat (F64.dec 7 1))] ] in
  let evt := mk_event "estimate.updated"
               [("total_hours", VInt 1400);
                ("confidence", VFloat (F64.dec 5 1))] in
  exists m m', run initial_metrics evts = Ok m /\ reduce m evt = Ok m' /\
    estimate_total m = VInt 1500 /\ estimate_total m' = VInt 1400 /\
    estimate_confidence m = VFloat (F64.dec 7 1) /\
    estimate_confidence m' = VFloat (F64.dec 5 1).
Proof.
  intros evts evt. eexists. eexists.
  split; [vm_compute; reflexivity|].
  split; [vm_compute; reflexivity|].
  vm_compute. repeat split.
Qed.

(** ** The quality score *)

Lemma is_max_of_single (a : num) : num_leb a a = true -> is_max_of a [a].
Proof.
  intros Ha. split.
  - exists a. split; [left; reflexivity|].
    apply XRealFacts.eqb_refl, Ha.
  - intros x [<-|[]]. apply XRealFacts.leb_not_ltb, Ha.
Qed.

(** One more number [n] folded in by [max]: the maximum of [a1 :: ns] with
    [a1 = max(a, n)] is a maximum of [a :: n :: ns]. *)
Lemma is_max_of_step (r a n : num) (ns : list num) :
  num_leb a a = true ->
  is_max_of r ((if num_gtb n a then n else a) :: ns) ->
  is_max_of r (a :: n :: ns).
Proof.
  intros Ha [(x & Hin & Heq) Hub].
  assert (Hr : num_leb r r = true).
  { apply XRealFacts.eqb_leb in Heq. apply (XRealFacts.leb_refl_l _ _ Heq). }
  pose proof (Hub _ (or_introl eq_refl)) as Hhead.
  split.
  - exists x. split; [|exact Heq].
    destruct Hin as [<-|Hin].
    + destruct (num_gtb n a); simpl; auto.
    + right. right. exact Hin.
  - intros y [<-|[<-|Hy]].
    + destruct (num_gtb n a) eqn:Hgt; [|exact Hhead].
      unfold num_gtb, num_leb, num_ltb in *.
      apply XRealFacts.gtb_leb in Hgt.
      apply XRealFacts.leb_not_ltb.
      apply (XRealFacts.leb_trans _ _ _ Hgt).
      apply XRealFacts.not_ltb_leb; try assumption.
      apply (XRealFacts.leb_refl_r _ _ Hgt).
    + destruct (num_gtb n a) eqn:Hgt; [exact Hhead|].
      unfold num_gtb, num_leb, num_ltb in *.
      destruct (XReal.leb (num_x n) (num_x n)) eqn:Hn;
        [|apply XRealFacts.ltb_nan_r, Hn].
      apply XRealFacts.leb_not_ltb.
      apply (XRealFacts.leb_trans _ (num_x a)).
      * apply XRealFacts.not_gtb_leb; assumption.
      * apply XRealFacts.not_ltb_leb; assumption.
    + apply Hub. right. exact Hy.
Qed.

Lemma reduce_quality_score (m m' : Metrics) (evt : event) :
  is_quality_score evt -> reduce m evt = Ok m' ->
  exists n,
    as_num (default (VFloat (F64.dec 2 1)) (data evt !! "score")) = Some n /\
    m' = set_data_quality_score
           (if num_gtb n (data_quality_score m) then n
            else data_quality_score m) m.
Proof.
  unfold is_quality_score, reduce. intros ->. simpl. unfold py_max.
  destruct (as_num _) as [n|]; simpl; [|discriminate].
  intros Hr. injection Hr as <-. eauto.
Qed.

Lemma quality_score_run (evts : list event) :
  forall m0 m,
    Forall is_quality_score evts ->
    run m0 evts = Ok m ->
    num_leb (data_quality_score m0) (data_quality_score m0) = true ->
    is_max_of (data_quality_score m)
      (data_quality_score m0 :: omap as_num (read_scores evts)).
Proof.
  induction evts as [|evt rest IH]; intros m0 m Hall Hrun Hnan.
  - simpl in Hrun. injection Hrun as <-. apply is_max_of_single, Hnan.
  - apply Forall_cons in Hall as [Hq Hall]. simpl in Hrun.
    destruct (reduce m0 evt) as [m1|e] eqn:Hr; simpl in Hrun; [|discriminate].
    destruct (reduce_quality_score m0 m1 evt Hq Hr) as (n & Hn & ->).
    cbn [read_scores map omap list_omap]. fold (read_scores rest).
    rewrite Hn. apply is_max_of_step; [exact Hnan|].
    apply (IH _ m Hall Hrun). cbn [data_quality_score set_data_quality_score].
    destruct (num_gtb n (data_quality_score m0)) eqn:Hgt; [|exact Hnan].
    unfold num_gtb, num_leb in *. apply XRealFacts.gtb_leb in Hgt.
    apply (XRealFacts.leb_refl_r _ _ Hgt).
Qed.

Lemma carried_in_read (evts : list event) (x : num) :
  In x (carried_scores evts) -> In x (omap as_num (read_scores evts)).
Proof.
  induction evts as [|evt rest IH]; [intros []|].
  unfold carried_scores, read_scores in *.
  cbn [map omap list_omap].
  destruct (data evt !! "score") as [v|]; cbn [default from_option id mbind option_bind].
  - destruct (as_num v) as [n|]; [|exact IH].
    intros [<-|Hin]; [left; reflexivity|right; apply IH, Hin].
  - intros Hin. right. apply IH, Hin.
Qed.

Lemma read_carried_or_default (evts : list event) (y : num) :
  In y (omap as_num (read_scores evts)) ->
  In y (carried_scores evts) \/ y = NFloat (F64.dec 2 1).
Proof.
  induction evts as [|evt rest IH]; [intros []|].
  unfold carried_scores, read_scores in *.
  cbn [map omap list_omap].
  destruct (data evt !! "score") as [v|]; cbn [default from_option id mbind option_bind].
  - destruct (as_num v) as [n|]; [|exact IH].
    intros [<-|Hin]; [left; left; reflexivity|].
    destruct (IH Hin); [left; right; assumption|right; assumption].
  - cbn [as_num]. intros [<-|Hin]; [right; reflexivity|].
    destruct (IH Hin); [left; assumption|right; assumption].
Qed.

(** C4 as stated fails: after one data.quality.score event with score 0.1,
    data_quality_score is the initial 0.2, which is no score of the
    sequence. *)
Lemma quality_score_below_initial :
  ~ (forall (evts : list event) (m : Metrics),
        Forall is_quality_score evts ->
        run initial_metrics evts = Ok m ->
        is_max_of (data_quality_score m) (carried_scores evts)).
Proof.
  intros H.
  assert (Hq : Forall is_quality_score
                 [mk_event "data.quality.score"
                    [("score", VFloat (F64.dec 1 1))]])
    by (repeat constructor).
  specialize (H _ _ Hq eq_refl).
  destruct H as [(x & Hin & Heq) _].
  vm_compute in Hin. destruct Hin as [<-|[]].
  vm_compute in Heq. discriminate Heq.
Qed.

(** C4 (amended): after a sequence of data.quality.score events applied to
    the initial metrics, data_quality_score is the maximum of the initial
    0.2 and the scores read from the events (0.2 for an event without one);
    so it is the maximum score carried as soon as one score is at least
    0.2.  No later event lowers it. *)
Theorem quality_score_is_running_max (evts : list event) (m : Metrics) :
  Forall is_quality_score evts ->
  run initial_metrics evts = Ok m ->
  is_max_of (data_quality_score m)
    (NFloat (F64.dec 2 1) :: omap as_num (read_scores evts)) /\
  ((exists x, In x (carried_scores evts) /\
              num_leb (NFloat (F64.dec 2 1)) x = true) ->
   is_max_of (data_quality_score m) (carried_scores evts)) /\
  (forall evt m',
      reduce m evt = Ok m' ->
      num_leb (data_quality_score m) (data_quality_score m') = true).
Proof.
  intros Hall Hrun.
  assert (Hmax : is_max_of (data_quality_score m)
            (NFloat (F64.dec 2 1) :: omap as_num (read_scores evts))).
  { apply (quality_score_run evts initial_metrics m Hall Hrun).
    vm_compute. reflexivity. }
  split; [exact Hmax|]. split.
  - intros (x & Hx & Hge). destruct Hmax as [(y & Hy & Heq) Hub].
    assert (Hb : forall z, In z (carried_scores evts) ->
                   num_ltb (data_quality_score m) z = false).
    { intros z Hz. apply Hub. right. apply carried_in_read, Hz. }
    split; [|exact Hb].
    assert (Hd : In y (carried_scores evts) \/ y = NFloat (F64.dec 2 1)).
    { destruct Hy as [<-|Hy]; [right; reflexivity|].
      apply read_carried_or_default, Hy. }
    destruct Hd as [Hd| ->]; [exists y; auto|].
    exists x. split; [exact Hx|].
    unfold num_eqb, num_leb, num_ltb in *.
    pose proof (XRealFacts.eqb_leb _ _ Heq) as Hle.
    apply XRealFacts.leb_antisym.
    + apply (XRealFacts.leb_trans _ _ _ Hle Hge).
    + apply XRealFacts.not_ltb_leb.
      * apply Hb, Hx.
      * apply (XRealFacts.leb_refl_l _ _ Hle).
      * apply (XRealFacts.leb_refl_r _ _ Hge).
  - intros evt m' Hr.
    apply (reduce_tracked m m' evt); [|exact Hr].
    apply reachable_tracked.
    apply (run_reachable evts initial_metrics m reach_init Hrun).
Qed.

Lemma quality_score_is_running_max_witness :
  let evts := [ mk_event "data.quality.score" [("score", VFloat (F64.dec 4 1))];
                mk_event "data.quality.score" [("score", VFloat (F64.dec 3 1))] ] in
  let m := set_data_quality_score (NFloat (F64.dec 4 1)) initial_metrics in
  is_max_of (data_quality_score m)
    (NFloat (F64.dec 2 1) :: omap as_num (read_scores evts)) /\
  ((exists x, In x (carried_scores evts) /\
              num_leb (NFloat (F64.dec 2 1)) x = true) ->
   is_max_of (data_quality_score m) (carried_scores evts)) /\
  (forall evt m',
      reduce m evt = Ok m' ->
      num_leb (data_quality_score m) (data_quality_score m') = true).
Proof.
  intros evts m.
  apply (quality_score_is_running_max evts m).
  - repeat constructor.
  - vm_compute. reflexivity.
Defined.

(** * Further properties of the code *)

(** ** When the reducer raises *)

Lemma reduce_poisoned (m : Metrics) (evt : event) :
  poisoned evt -> reduce m evt = Raise TypeError.
Proof.
  intros [Het (v & Hs & Hn)]. unfold reduce. rewrite Het, Hs. cbn.
  unfold py_max. rewrite Hn. reflexivity.
Qed.

(** X1: The reducer raises on the poisoned events and on no other, and what it
    raises is TypeError. *)
Theorem reduce_raises_iff (m : Metrics) (evt : event) (e : exn) :
  reduce m evt = Raise e <-> poisoned evt /\ e = TypeError.
Proof.
  unfold poisoned, reduce. split.
  - by_event_type (event_type evt); try discriminate.
    unfold py_max.
    destruct (data evt !! "score") as [v|] eqn:Hs; cbn [default from_option id].
    + destruct (as_num v) eqn:Hn; [discriminate|].
      cbn [bind]. intros H. injection H as <-.
      match goal with H : String.eqb _ _ = true |- _ =>
        apply String.eqb_eq in H end.
      split; [|reflexivity]. split; [assumption|]. eauto.
    + discriminate.
  - intros [Hp ->]. fold (reduce m evt). apply reduce_poisoned, Hp.
Qed.

(** ** The consume loop as a fold *)

Lemma pump_received {ip : interp} (o : orch) (evt : event) (rest : list poll)
    (m' : Metrics) :
  writable ip evt ->
  reduce (live o) evt = Ok m' ->
  exists o1, pump ip o (Received evt :: rest) = pump ip o1 rest /\
    live o1 = m' /\ metrics o1 = metrics o /\ start o1 = start o /\
    evlog o1 = evlog o ++ [evt] /\ snaps o1 = snaps o /\ dlog o1 = dlog o /\
    heap o1 = <[metrics o := m']> (heap o).
Proof.
  intros Hw Hr.
  destruct (pump_body_reduce o evt m' Hw Hr)
    as (o1 & Hp & Hl & Hm & Hh & He & Hs & Hd & Hst).
  exists o1. cbn [pump]. rewrite Hp. auto 10.
Qed.

Lemma encode_items_ok (ip : interp) (room : nat) (d : list (string * value)) :
  encode_items ip room d = Ok tt <->
  Forall (fun kv => encode ip room kv.2 = Ok tt) d.
Proof.
  induction d as [|[k x] d IH]; cbn [encode_items].
  - split; [constructor|reflexivity].
  - fold (encode_items ip room d).
    destruct (encode ip room x) as [[]|e] eqn:Hx; cbn [bind].
    + rewrite IH. split.
      * intros H. constructor; [exact Hx|exact H].
      * intros H. apply Forall_cons in H as [_ H]. exact H.
    + split; [discriminate|].
      intros H. apply Forall_cons in H as [H _]. cbn in H. congruence.
Qed.

(** Whether [json.dumps] accepts an event does not depend on the order of
    the payload's items: it does when two levels of recursion are left for
    the event and its payload, and every value of the payload encodes in
    what remains. *)
Lemma writable_iff (ip : interp) (evt : event) :
  writable ip evt <->
  exists room, recursion_room ip = S (S room) /\
    map_Forall (fun _ v => encode ip room v = Ok tt) (data evt).
Proof.
  unfold writable, json_dumps, event_value.
  destruct (recursion_room ip) as [|[|room]]; cbn [encode bind].
  - split; [discriminate|]. intros (r & H & _). discriminate H.
  - split; [discriminate|]. intros (r & H & _). discriminate H.
  - fold (encode_items ip room (map_to_list (data evt))).
    destruct (encode_items ip room (map_to_list (data evt))) as [[]|e] eqn:Hd;
      cbn [bind].
    + apply encode_items_ok in Hd. split; [|reflexivity].
      intros _. exists room. split; [reflexivity|].
      apply map_Forall_to_list.
      eapply Forall_impl; [exact Hd|]. intros [k v] H. exact H.
    + split; [discriminate|]. intros (r & Hr & H). injection Hr as <-.
      apply map_Forall_to_list in H.
      assert (Hok : encode_items ip room (map_to_list (data evt)) = Ok tt).
      { apply encode_items_ok. eapply Forall_impl; [exact H|].
        intros [k v] Hkv. exact Hkv. }
      congruence.
Qed.

(** [json.dumps] raises ValueError or RecursionError, never TypeError. *)
Lemma encode_raises (ip : interp) (room : nat) :
  forall (v : value) (e : exn),
    encode ip room v = Raise e -> e = ValueError \/ e = RecursionError.
Proof.
  induction room as [|room IH]; intros v e;
    destruct v as [| | z | | | l | d]; cbn [encode]; try discriminate;
    try (destruct (too_long ip z); [|discriminate];
         intros H; injection H as <-; left; reflexivity);
    try (intros H; injection H as <-; right; reflexivity).
  - induction l as [|x l IHl]; [discriminate|].
    destruct (encode ip room x) as [[]|e'] eqn:Hx; cbn [bind].
    + exact IHl.
    + intros H. injection H as <-. apply (IH x e' Hx).
  - induction d as [|[k x] d IHd]; [discriminate|].
    destruct (encode ip room x) as [[]|e'] eqn:Hx; cbn [bind].
    + exact IHd.
    + intros H. injection H as <-. apply (IH x e' Hx).
Qed.

(** X2: A poisoned event that [json.dumps] accepts ends the consume loop
    with TypeError: the events before it are in the log and in the metrics,
    the poisoned one is in the log only, and the polls after it are never
    looked at. *)
Theorem pump_poisoned (ip : interp)
    (o : orch) (good : list event) (bad : event) (rest : list poll)
    (m : Metrics) :
  Forall (writable ip) good ->
  writable ip bad ->
  run (live o) good = Ok m ->
  poisoned bad ->
  exists o',
    pump ip o (map Received good ++ Received bad :: rest) = Raised TypeError o' /\
    evlog o' = evlog o ++ good ++ [bad] /\
    live o' = m /\
    dlog o' = dlog o.
Proof.
  intros Hgood Hwb. revert o.
  induction Hgood as [|evt good Hw _ IH]; intros o Hrun Hbad.
  - cbn in Hrun. injection Hrun as <-.
    assert (Hr : reduce (live o) bad = Raise TypeError)
      by (apply reduce_poisoned; exact Hbad).
    exists (write_evlog bad o). cbn [map app pump]. unfold pump_body.
    unfold writable in Hwb. rewrite !Hwb. cbn [bind].
    change (live (write_evlog bad o)) with (live o). rewrite Hr.
    cbn [bind]. auto.
  - cbn [run] in Hrun.
    destruct (reduce (live o) evt) as [m1|e] eqn:Hr; cbn in Hrun;
      [|discriminate].
    destruct (pump_received o evt (map Received good ++ Received bad :: rest)
                m1 Hw Hr) as (o1 & Hp & Hl & _ & _ & He & _ & Hd & _).
    rewrite <- Hl in Hrun.
    destruct (IH o1 Hrun Hbad) as (o' & Hp' & He' & Hl' & Hd').
    exists o'. cbn [map app]. rewrite Hp, Hp'.
    rewrite He', He, Hd', Hd, <- app_assoc. auto.
Qed.

Lemma pump_poisoned_witness :
  let o := orch_init 0 in
  let good := [mk_event "process.discovered" []] in
  let bad := mk_event "data.quality.score" [("score", VStr "high")] in
  let rest := [Received (mk_event "risk.identified" [])] in
  exists o',
    pump sample_interp o (map Received good ++ Received bad :: rest)
      = Raised TypeError o' /\
    evlog o' = evlog o ++ good ++ [bad] /\
    live o' = set_process_coverage (F64.add (F64.dec 5 2) (F64.dec 1 2))
                (set_processes 1 initial_metrics) /\
    dlog o' = dlog o.
Proof.
  intros o good bad rest.
  apply (pump_poisoned sample_interp o good bad rest).
  - repeat constructor.
  - vm_compute. reflexivity.
  - vm_compute. reflexivity.
  - split; [reflexivity|]. exists (VStr "high"). split; reflexivity.
Defined.

(** X23: An event that [json.dumps] rejects ends the consume loop with the
    exception [json.dumps] raises, a ValueError or a RecursionError: the
    events before it are in the log and in the metrics, the rejected one is
    in neither, and the polls after it are never looked at. *)
Theorem pump_unwritable (ip : interp)
    (o : orch) (good : list event) (bad : event) (rest : list poll)
    (m : Metrics) (e : exn) :
  Forall (writable ip) good ->
  run (live o) good = Ok m ->
  json_dumps ip bad = Raise e ->
  exists o',
    pump ip o (map Received good ++ Received bad :: rest) = Raised e o' /\
    (e = ValueError \/ e = RecursionError) /\
    evlog o' = evlog o ++ good /\
    live o' = m /\
    dlog o' = dlog o.
Proof.
  intros Hgood. revert o.
  induction Hgood as [|evt good Hw _ IH]; intros o Hrun Hbad.
  - cbn in Hrun. injection Hrun as <-.
    exists o. cbn [map app pump]. unfold pump_body.
    rewrite !Hbad. cbn [bind]. rewrite app_nil_r.
    split; [reflexivity|]. split; [|auto].
    apply (encode_raises ip _ _ _ Hbad).
  - cbn [run] in Hrun.
    destruct (reduce (live o) evt) as [m1|e1] eqn:Hr; cbn in Hrun;
      [|discriminate].
    destruct (pump_received o evt (map Received good ++ Received bad :: rest)
                m1 Hw Hr) as (o1 & Hp & Hl & _ & _ & He & _ & Hd & _).
    rewrite <- Hl in Hrun.
    destruct (IH o1 Hrun Hbad) as (o' & Hp' & Hexn & He' & Hl' & Hd').
    exists o'. cbn [map app]. rewrite Hp, Hp'.
    rewrite He', He, Hd', Hd, <- app_assoc. auto.
Qed.

Lemma pump_unwritable_witness :
  let o := orch_init 0 in
  let good := [mk_event "process.discovered" []] in
  let rest := [Received (mk_event "risk.identified" [])] in
  exists o',
    pump sample_interp o (map Received good ++ Received oversized :: rest)
      = Raised ValueError o' /\
    (ValueError = ValueError \/ ValueError = RecursionError) /\
    evlog o' = evlog o ++ good /\
    live o' = set_process_coverage (F64.add (F64.dec 5 2) (F64.dec 1 2))
                (set_processes 1 initial_metrics) /\
    dlog o' = dlog o.
Proof.
  intros o good rest.
  apply (pump_unwritable sample_interp o good oversized rest).
  - repeat constructor.
  - vm_compute. reflexivity.
  - exact oversized_unwritable.
Defined.

(** X3: As long as [json.dumps] and the reducer accept them, the consume
    loop folds the reducer over the events it receives, in order, and
    appends them to the event log; it leaves through [break] exactly when a
    timeout reads more than [RUNTIME_SECONDS] seconds, and touches neither
    the snapshots nor their log. *)
Theorem pump_is_fold (ip : interp) (polls : list poll) (o : orch)
    (m : Metrics) :
  Forall (writable ip) (consumed (start o) polls) ->
  run (live o) (consumed (start o) polls) = Ok m ->
  exists o',
    pump ip o polls
      = (if deadline_seen (start o) polls then Stopped o' else Running o') /\
    live o' = m /\
    evlog o' = evlog o ++ consumed (start o) polls /\
    metrics o' = metrics o /\ start o' = start o /\
    snaps o' = snaps o /\ dlog o' = dlog o.
Proof.
  revert o. induction polls as [|p polls IH]; intros o Hw Hrun.
  - cbn in *. injection Hrun as <-. exists o. rewrite app_nil_r. auto 10.
  - destruct p as [evt|now].
    + cbn [consumed run] in Hrun, Hw.
      apply Forall_cons in Hw as [Hevt Hw].
      destruct (reduce (live o) evt) as [m1|e] eqn:Hr; cbn in Hrun;
        [|discriminate].
      destruct (pump_received o evt polls m1 Hevt Hr)
        as (o1 & Hp & Hl & Hm & Hst & He & Hs & Hd & _).
      rewrite <- Hl, <- Hst in Hrun. rewrite <- Hst in Hw.
      destruct (IH o1 Hw Hrun)
        as (o' & Hp' & Hl' & He' & Hm' & Hst' & Hs' & Hd').
      exists o'. rewrite Hp, Hp'. cbn [deadline_seen existsb consumed orb].
      fold (deadline_seen (start o1) polls). rewrite Hst in *.
      rewrite He', He, <- app_assoc. cbn [app].
      repeat split; congruence.
    + cbn [pump consumed deadline_seen existsb] in *.
      fold (deadline_seen (start o) polls).
      destruct (td_seconds (now - start o) >? RUNTIME_SECONDS).
      * cbn in Hrun. injection Hrun as <-. exists o.
        cbn. rewrite app_nil_r. auto 10.
      * cbn [orb]. apply IH; assumption.
Qed.

Lemma pump_is_fold_witness :
  let o := orch_init 0 in
  let polls := [ Received (mk_event "risk.identified" []);
                 TimedOut 12000000;
                 Received (mk_event "plan.updated" []);
                 TimedOut 31000000;
                 Received (mk_event "risk.identified" []) ] in
  exists o',
    pump sample_interp o polls
      = (if deadline_seen (start o) polls then Stopped o' else Running o') /\
    live o' = set_risks 1 initial_metrics /\
    evlog o' = evlog o ++ consumed (start o) polls /\
    metrics o' = metrics o /\ start o' = start o /\
    snaps o' = snaps o /\ dlog o' = dlog o.
Proof.
  intros o polls. apply (pump_is_fold sample_interp polls o).
  - vm_compute. repeat constructor.
  - vm_compute. reflexivity.
Defined.

(** X4: The consume loop leaves through [break] only on a timeout that reads
    more than [RUNTIME_SECONDS] seconds: while events keep arriving it goes
    on, however late it is. *)
Theorem pump_stops_only_on_timeout (ip : interp) (polls : list poll) (o o' : orch) :
  pump ip o polls = Stopped o' ->
  exists now, In (TimedOut now) polls /\
    td_seconds (now - start o) > RUNTIME_SECONDS.
Proof.
  revert o. induction polls as [|p polls IH]; intros o Hp; [discriminate|].
  destruct p as [evt|now]; cbn [pump] in Hp.
  - destruct (pump_body ip o evt) as [o1|e] eqn:Hb; [|discriminate].
    apply pump_body_inv in Hb as (m' & _ & _ & _ & _ & _ & _ & _ & Hst).
    destruct (IH o1 Hp) as (now & Hin & Hgt).
    exists now. rewrite <- Hst. split; [right; exact Hin|exact Hgt].
  - destruct (td_seconds (now - start o) >? RUNTIME_SECONDS) eqn:Hc.
    + exists now. split; [left; reflexivity|].
      apply Z.gtb_gt in Hc. exact Hc.
    + destruct (IH o Hp) as (now' & Hin & Hgt).
      exists now'. split; [right; exact Hin|exact Hgt].
Qed.

Lemma pump_stops_only_on_timeout_witness :
  let o := orch_init 0 in
  let polls := [ Received (mk_event "risk.identified" []);
                 TimedOut 31000000 ] in
  exists now, In (TimedOut now) polls /\
    td_seconds (now - start o) > RUNTIME_SECONDS.
Proof.
  intros o polls.
  apply (pump_stops_only_on_timeout sample_interp polls o
           (set_heap (<[0%nat := set_risks 1 initial_metrics]> (heap o))
              (write_evlog (mk_event "risk.identified" []) o))).
  vm_compute. reflexivity.
Defined.

(** ** A quiet bus is drained before the loop leaves *)

Lemma pump_timeouts_stop_any {ip : interp} (o : orch) (t0 : Z) (times : list Z) :
  ticks t0 times ->
  (156 <= length times)%nat ->
  pump ip o (map TimedOut times) = Stopped o.
Proof.
  intros Ht Hlen.
  pose proof (Z.mod_pos_bound (t0 - start o) 86400000000 ltac:(lia)) as Hb.
  destruct (Z_lt_le_dec ((t0 - start o) mod 86400000000) 31000000)
    as [Hlt|Hge].
  - apply (pump_timeouts_stop 155 times t0 o Ht Hlt); lia.
  - destruct times as [|t1 rest]; cbn in Hlen; [lia|].
    destruct Ht as [Hd Hrest]. cbn [map pump].
    destruct (td_seconds (t1 - start o) >? RUNTIME_SECONDS) eqn:Hc;
      [reflexivity|].
    assert (Hlt : (t1 - start o) mod 86400000000 < 31000000).
    { destruct (Z_lt_le_dec ((t1 - start o) mod 86400000000) 31000000)
        as [|Hge']; [assumption|].
      apply stop_check in Hge'. congruence. }
    pose proof (Z.mod_pos_bound (t1 - start o) 86400000000 ltac:(lia)).
    apply (pump_timeouts_stop 155 rest t1 o Hrest Hlt); lia.
Qed.

(** X6: With events queued that [json.dumps] and the reducer accept, and no
    producer left, the consume loop processes every queued event, in queue
    order, before it can leave, however long the run duration has been
    exceeded: the deadline is looked at on timeouts only.  Once the queue
    is empty it leaves within 156 polls. *)
Theorem pump_drains_quiet_bus (ip : interp)
    (o : orch) (q : list event) (t0 : Z) (times : list Z) (m : Metrics) :
  Forall (writable ip) q ->
  run (live o) q = Ok m ->
  ticks t0 times ->
  (156 <= length times)%nat ->
  exists o',
    pump ip o (quiet_polls q times) = Stopped o' /\
    evlog o' = evlog o ++ q /\
    live o' = m /\
    dlog o' = dlog o.
Proof.
  intros Hq Hrun Ht Hlen. unfold quiet_polls.
  revert o Hrun. induction Hq as [|evt q Hw _ IH]; intros o Hrun.
  - cbn in Hrun. injection Hrun as <-. exists o. cbn [map app].
    rewrite (pump_timeouts_stop_any o t0 times Ht Hlen), app_nil_r. auto.
  - cbn [run] in Hrun.
    destruct (reduce (live o) evt) as [m1|e] eqn:Hr; cbn in Hrun;
      [|discriminate].
    destruct (pump_received o evt (map Received q ++ map TimedOut times) m1
                Hw Hr)
      as (o1 & Hp & Hl & _ & _ & He & _ & Hd & _).
    rewrite <- Hl in Hrun.
    destruct (IH o1 Hrun) as (o' & Hp' & He' & Hl' & Hd').
    exists o'. cbn [map app]. rewrite Hp, Hp', He', He, Hd', Hd.
    rewrite <- app_assoc. auto.
Qed.

Lemma pump_drains_quiet_bus_witness :
  let o := orch_init 0 in
  let q := [ mk_event "process.discovered" [];
             mk_event "plan.updated" [] ] in
  let times := map (fun k => 90000000 + 200000 * Z.of_nat k) (seq 1 156) in
  exists o',
    pump sample_interp o (quiet_polls q times) = Stopped o' /\
    evlog o' = evlog o ++ q /\
    live o' = set_process_coverage (F64.add (F64.dec 5 2) (F64.dec 1 2))
                (set_processes 1 initial_metrics) /\
    dlog o' = dlog o.
Proof.
  intros o q times.
  apply (pump_drains_quiet_bus sample_interp o q 90000000 times).
  - repeat constructor.
  - vm_compute. reflexivity.
  - vm_compute. repeat split; discriminate.
  - vm_compute. apply le_n.
Defined.

(** ** The metrics as a function of the event log *)

Lemma count_type_app (et : string) (l : list event) (evt : event) :
  count_type et (l ++ [evt])
  = count_type et l + (if String.eqb (event_type evt) et then 1 else 0).
Proof.
  unfold count_type. rewrite List.filter_app, length_app. cbn.
  destruct (String.eqb (event_type evt) et); cbn; lia.
Qed.

(** Rewrite the event type to the literal its branch fixes, and decide the
    remaining comparisons. *)
Ltac settle_event_type :=
  repeat match goal with
  | H : String.eqb _ _ = true |- _ => apply String.eqb_eq in H; rewrite H in *
  end;
  repeat match goal with
  | H : String.eqb ?a ?b = false |- context [String.eqb ?a ?b] => rewrite H
  end;
  cbn [String.eqb Ascii.eqb Bool.eqb].

Lemma reduce_counts (m m' : Metrics) (evt : event) :
  reduce m evt = Ok m' ->
  processes m' = processes m
    + (if String.eqb (event_type evt) "process.discovered" then 1 else 0) /\
  requirements m' = requirements m
    + (if String.eqb (event_type evt) "requirement.identified" then 1 else 0) /\
  risks m' = risks m
    + (if String.eqb (event_type evt) "risk.identified" then 1 else 0).
Proof.
  unfold reduce.
  by_event_type (event_type evt); intros Hr;
    try (destruct (py_max _ _); cbn in Hr; [|discriminate]);
    injection Hr as <-; settle_event_type; cbn; lia.
Qed.

Lemma steps_from {ip : interp} (P : orch -> Prop) :
  (forall o o', P o -> step ip o o' -> P o') ->
  forall o o', steps ip o o' -> P o -> P o'.
Proof.
  intros Hstep o o' Hsteps. induction Hsteps as [|a b c Hab _ IH]; [auto|].
  intros Ha. apply IH. apply (Hstep a b Ha Hab).
Qed.

(** Receiving events that do not raise is a sequence of steps. *)
Lemma pump_steps {ip : interp} (evts : list event) :
  forall o o', pump ip o (map Received evts) = Running o' -> steps ip o o'.
Proof.
  induction evts as [|evt evts IH]; intros o o' Hp; cbn [map pump] in Hp.
  - injection Hp as <-. apply steps_refl.
  - destruct (pump_body ip o evt) as [o1|e] eqn:Hb; [|discriminate].
    apply (steps_cons o o1 o'); [apply (step_pump o evt o1 Hb)|].
    apply IH, Hp.
Qed.

Lemma after_steps {ip : interp} (o : orch) (evts : list event) :
  pump ip o (map Received evts) = Running (after ip o evts) ->
  steps ip o (after ip o evts).
Proof. apply pump_steps. Qed.

Lemma dashboards_evlog (o : orch) (now : Z) (avg_comp : float64) :
  evlog (dashboards_body o now avg_comp) = evlog o.
Proof. reflexivity. Qed.

(** X7: The three counters are the numbers of process.discovered,
    requirement.identified and risk.identified events in the event log, at
    every point of a run of the orchestrator. *)
Theorem counters_count_the_log (ip : interp) (t : Z) (o : orch) :
  steps ip (orch_init t) o ->
  processes (live o) = count_type "process.discovered" (evlog o) /\
  requirements (live o) = count_type "requirement.identified" (evlog o) /\
  risks (live o) = count_type "risk.identified" (evlog o).
Proof.
  intros Hsteps. apply (@steps_from ip counted) with (o := orch_init t);
    [|exact Hsteps|vm_compute; auto].
  clear. intros o o' (H1 & H2 & H3) Hstep.
  destruct Hstep as [o evt o' Hp | o now avg].
  - apply pump_body_inv in Hp as (m' & Hr & Hl & _ & _ & He & _).
    destruct (reduce_counts _ _ _ Hr) as (C1 & C2 & C3).
    unfold counted. rewrite Hl, He, !count_type_app. lia.
  - unfold counted. rewrite dashboards_live, dashboards_evlog. exact (conj H1 (conj H2 H3)).
Qed.

Lemma counters_count_the_log_witness :
  let o := after sample_interp (orch_init 0)
             [ mk_event "risk.identified" [];
               mk_event "process.discovered" [];
               mk_event "plan.updated" [("duration_weeks", VInt 16)];
               mk_event "risk.identified" [];
               mk_event "requirement.identified" [];
               mk_event "risk.identified" [] ] in
  processes (live o) = count_type "process.discovered" (evlog o) /\
  requirements (live o) = count_type "requirement.identified" (evlog o) /\
  risks (live o) = count_type "risk.identified" (evlog o).
Proof.
  intros o. apply (counters_count_the_log sample_interp 0 o).
  apply after_steps. vm_compute. reflexivity.
Defined.

Lemma orbit_ok_at (cap inc : float64) (vals : list float64) (last : nat)
    (step : Z) (k : nat) :
  orbit_ok cap inc vals last step = true ->
  (k <= last)%nat ->
  bump cap inc (nth k vals cap) = nth (Nat.min (S k) last) vals cap /\
  ((k < last)%nat -> nth k vals cap <> cap /\
                     near_decimal step k (nth k vals cap) = true) /\
  (k = last -> nth k vals cap = cap).
Proof.
  unfold orbit_ok. rewrite forallb_forall. intros Hall Hk.
  assert (Hin : In k (seq 0 (S last))) by (apply in_seq; lia).
  specialize (Hall k Hin). apply andb_true_iff in Hall as [H1 H2].
  apply bool_decide_eq_true in H1. split; [exact H1|].
  destruct (k <? last)%nat eqn:Hlt.
  - apply Nat.ltb_lt in Hlt. split; [|lia]. intros _.
    apply andb_true_iff in H2 as [H2 H3]. split; [|exact H3].
    apply negb_true_iff, bool_decide_eq_false in H2. exact H2.
  - apply Nat.ltb_ge in Hlt. split; [lia|]. intros _.
    apply bool_decide_eq_true in H2. exact H2.
Qed.

Lemma follows_start (cap inc : float64) (vals : list float64) (last : nat)
    (step : Z) :
  orbit_ok cap inc vals last step = true ->
  follows vals cap last step 0 (nth 0 vals cap).
Proof.
  intros Hok. destruct (orbit_ok_at cap inc vals last step 0 Hok ltac:(lia))
    as (_ & Hlt & Heq).
  unfold follows, nth_capped. cbn [Z.to_nat Nat.min]. split; [reflexivity|].
  destruct last as [|last].
  - split; [split; [lia|intros _; apply Heq; reflexivity]|lia].
  - destruct (Hlt ltac:(lia)) as [Hne Hnear].
    split; [split; [intros E; contradiction|lia]|intros _; exact Hnear].
Qed.

(** One more event of the type moves the field to the next value; an event
    of another type leaves it where it is. *)
Lemma follows_bump (cap inc : float64) (vals : list float64) (last : nat)
    (step : Z) (n : Z) (x : float64) :
  orbit_ok cap inc vals last step = true ->
  0 <= n ->
  follows vals cap last step n x ->
  follows vals cap last step (n + 1) (bump cap inc x).
Proof.
  intros Hok Hn (Hx & _ & _). subst x. unfold follows, nth_capped.
  set (k := Nat.min (Z.to_nat n) last).
  destruct (orbit_ok_at cap inc vals last step k Hok ltac:(lia))
    as (Hb & _ & _).
  rewrite Hb.
  assert (Hk : Nat.min (S k) last = Nat.min (Z.to_nat (n + 1)) last)
    by (unfold k; lia).
  rewrite Hk. split; [reflexivity|].
  set (k' := Nat.min (Z.to_nat (n + 1)) last).
  destruct (orbit_ok_at cap inc vals last step k' Hok ltac:(lia))
    as (_ & Hlt & Heq).
  split; [split|].
  - intros E. destruct (Nat.lt_ge_cases k' last) as [Hl|Hg]; [|lia].
    destruct (Hlt Hl) as [Hne _]. contradiction.
  - intros Hle. apply Heq. unfold k'. lia.
  - intros Hl. assert (E : k' = Z.to_nat (n + 1)) by (unfold k'; lia).
    rewrite <- E. apply Hlt. lia.
Qed.

Lemma coverage_orbit_ok :
  orbit_ok (F64.dec 95 2) (F64.dec 1 2) coverage_values 90 1 = true.
Proof. vm_compute. reflexivity. Qed.

Lemma fsd_orbit_ok :
  orbit_ok (F64.dec 98 2) (F64.dec 2 2) fsd_values 47 2 = true.
Proof. vm_compute. reflexivity. Qed.

Lemma reduce_capped_fields (m m' : Metrics) (evt : event) :
  reduce m evt = Ok m' ->
  process_coverage m'
    = (if String.eqb (event_type evt) "process.discovered"
       then bump (F64.dec 95 2) (F64.dec 1 2) (process_coverage m)
       else process_coverage m) /\
  requirements_complete m'
    = (if String.eqb (event_type evt) "requirement.identified"
       then bump (F64.dec 95 2) (F64.dec 1 2) (requirements_complete m)
       else requirements_complete m) /\
  fsd_completeness m'
    = (if String.eqb (event_type evt) "fsd.section_drafted"
       then bump (F64.dec 98 2) (F64.dec 2 2) (fsd_completeness m)
       else fsd_completeness m).
Proof.
  unfold reduce.
  by_event_type (event_type evt); intros Hr;
    try (destruct (py_max _ _); cbn in Hr; [|discriminate]);
    injection Hr as <-; settle_event_type; repeat split.
Qed.

Lemma count_type_nonneg (et : string) (evts : list event) :
  0 <= count_type et evts.
Proof. unfold count_type. lia. Qed.

Lemma follows_event (cap inc : float64) (vals : list float64) (last : nat)
    (step : Z) (et : string) (l : list event) (evt : event) (x : float64) :
  orbit_ok cap inc vals last step = true ->
  follows vals cap last step (count_type et l) x ->
  follows vals cap last step (count_type et (l ++ [evt]))
    (if String.eqb (event_type evt) et then bump cap inc x else x).
Proof.
  intros Hok Hx. rewrite count_type_app.
  destruct (String.eqb (event_type evt) et).
  - apply (follows_bump cap inc); [exact Hok|apply count_type_nonneg|exact Hx].
  - rewrite Z.add_0_r. exact Hx.
Qed.

(** X8: The capped fields are functions of the event log: with [n] events of
    its type logged, a field holds the [n]-th value of its run
    (0.05 + 0.01 n, respectively 0.05 + 0.02 n, up to [10^-15]) as long as
    [n] is below 90 (47 for fsd_completeness), and exactly its ceiling from
    the 90th (47th) event on, not before. *)
Theorem capped_fields_follow_the_log (ip : interp) (t : Z) (o : orch) :
  steps ip (orch_init t) o ->
  follows coverage_values (F64.dec 95 2) 90 1
    (count_type "process.discovered" (evlog o))
    (process_coverage (live o)) /\
  follows coverage_values (F64.dec 95 2) 90 1
    (count_type "requirement.identified" (evlog o))
    (requirements_complete (live o)) /\
  follows fsd_values (F64.dec 98 2) 47 2
    (count_type "fsd.section_drafted" (evlog o))
    (fsd_completeness (live o)).
Proof.
  intros Hsteps.
  apply (@steps_from ip (fun o =>
    follows coverage_values (F64.dec 95 2) 90 1
      (count_type "process.discovered" (evlog o))
      (process_coverage (live o)) /\
    follows coverage_values (F64.dec 95 2) 90 1
      (count_type "requirement.identified" (evlog o))
      (requirements_complete (live o)) /\
    follows fsd_values (F64.dec 98 2) 47 2
      (count_type "fsd.section_drafted" (evlog o))
      (fsd_completeness (live o)))) with (o := orch_init t);
    [|exact Hsteps|].
  - clear. intros o o' (H1 & H2 & H3) Hstep.
    destruct Hstep as [o evt o' Hp | o now avg].
    + apply pump_body_inv in Hp as (m' & Hr & Hl & _ & _ & He & _).
      destruct (reduce_capped_fields _ _ _ Hr) as (C1 & C2 & C3).
      rewrite Hl, He, C1, C2, C3.
      split; [|split].
      * apply (follows_event _ _ _ _ _ _ _ _ _ coverage_orbit_ok H1).
      * apply (follows_event _ _ _ _ _ _ _ _ _ coverage_orbit_ok H2).
      * apply (follows_event _ _ _ _ _ _ _ _ _ fsd_orbit_ok H3).
    + rewrite dashboards_live, dashboards_evlog. exact (conj H1 (conj H2 H3)).
  - change (evlog (orch_init t)) with (@nil event).
    change (live (orch_init t)) with initial_metrics.
    split; [|split].
    + apply (follows_start _ _ _ _ _ coverage_orbit_ok).
    + apply (follows_start _ _ _ _ _ coverage_orbit_ok).
    + apply (follows_start _ _ _ _ _ fsd_orbit_ok).
Qed.

Lemma capped_fields_follow_the_log_witness :
  let o := after sample_interp (orch_init 0)
             (repeat (mk_event "fsd.section_drafted" []) 47
              ++ repeat (mk_event "process.discovered" []) 3) in
  follows coverage_values (F64.dec 95 2) 90 1
    (count_type "process.discovered" (evlog o))
    (process_coverage (live o)) /\
  follows coverage_values (F64.dec 95 2) 90 1
    (count_type "requirement.identified" (evlog o))
    (requirements_complete (live o)) /\
  follows fsd_values (F64.dec 98 2) 47 2
    (count_type "fsd.section_drafted" (evlog o))
    (fsd_completeness (live o)).
Proof.
  intros o. apply (capped_fields_follow_the_log sample_interp 0 o).
  apply after_steps. vm_compute. reflexivity.
Defined.

(** ** The estimate fields *)

Lemma reduce_estimates (m m' : Metrics) (evt : event) :
  reduce m evt = Ok m' ->
  estimate_total m'
    = (if String.eqb (event_type evt) "estimate.updated"
       then default (estimate_total m) (data evt !! "total_hours")
       else estimate_total m) /\
  estimate_confidence m'
    = (if String.eqb (event_type evt) "estimate.updated"
       then default (estimate_confidence m) (data evt !! "confidence")
       else estimate_confidence m).
Proof.
  unfold reduce.
  by_event_type (event_type evt); intros Hr;
    try (destruct (py_max _ _); cbn in Hr; [|discriminate]);
    injection Hr as <-; settle_event_type; repeat split.
Qed.

(** X9: The estimate fields are last-writer-wins: after a run of the reducer,
    estimate_total (estimate_confidence) is the total_hours (confidence) of
    the last estimate.updated event that carries one, whatever kind of value
    it is, and the value before the run if no event carries one. *)
Theorem estimates_last_write_wins (evts : list event) (m m' : Metrics) :
  run m evts = Ok m' ->
  estimate_total m' = last_payload "total_hours" evts (estimate_total m) /\
  estimate_confidence m'
    = last_payload "confidence" evts (estimate_confidence m).
Proof.
  revert m. induction evts as [|evt rest IH]; intros m Hrun.
  - cbn in Hrun. injection Hrun as <-. cbn. auto.
  - cbn [run] in Hrun.
    destruct (reduce m evt) as [m1|e] eqn:Hr; cbn in Hrun; [|discriminate].
    destruct (reduce_estimates m m1 evt Hr) as [E1 E2].
    destruct (IH m1 Hrun) as [I1 I2].
    cbn [last_payload]. rewrite <- E1, <- E2. auto.
Qed.

Lemma estimates_last_write_wins_witness :
  let evts := [ mk_event "estimate.updated"
                  [("total_hours", VInt 1500);
                   ("confidence", VFloat (F64.dec 7 1))];
                mk_event "risk.identified" [];
                mk_event "estimate.updated" [("total_hours", VStr "n/a")] ] in
  let m' := set_risks 1
              (set_estimate_confidence (VFloat (F64.dec 7 1))
                 (set_estimate_total (VStr "n/a") initial_metrics)) in
  estimate_total m'
    = last_payload "total_hours" evts (estimate_total initial_metrics) /\
  estimate_confidence m'
    = last_payload "confidence" evts (estimate_confidence initial_metrics).
Proof.
  intros evts m'.
  apply (estimates_last_write_wins evts initial_metrics m').
  vm_compute. reflexivity.
Defined.

(** ** The derived clock fields *)

Lemma td_seconds_shift (x k : Z) :
  td_seconds (x + k * 86400000000) = td_seconds x.
Proof.
  unfold td_seconds.
  replace (x + k * 86400000000) with (x + (k * 86400) * 1000000) by lia.
  rewrite Z.div_add by lia. rewrite Z.mod_add by lia. reflexivity.
Qed.

(** X10: The clock fields read the time of day of the elapsed time: [day()],
    [hours_to_cutoff()] and the deadline test of the loops are the same a
    whole number of days later (or earlier). *)
Theorem clock_fields_wrap_daily (o : orch) (now k : Z) :
  day o (now + k * 86400000000) = day o now /\
  hours_to_cutoff o (now + k * 86400000000) = hours_to_cutoff o now /\
  (td_seconds (now + k * 86400000000 - start o) >? RUNTIME_SECONDS)
  = (td_seconds (now - start o) >? RUNTIME_SECONDS).
Proof.
  assert (E : td_seconds (now + k * 86400000000 - start o)
              = td_seconds (now - start o)).
  { replace (now + k * 86400000000 - start o)
      with (now - start o + k * 86400000000) by lia.
    apply td_seconds_shift. }
  unfold day, hours_to_cutoff. rewrite E. auto.
Qed.

(** X11: Within the first 24 hours [day()] counts six-second buckets of the
    elapsed time, from 1 and capped at 5; it never goes back. *)
Theorem day_buckets (o : orch) (now now' : Z) :
  0 <= now - start o ->
  now <= now' ->
  now' - start o < 86400000000 ->
  day o now = Z.min ((now - start o) / 6000000 + 1) 5 /\
  day o now <= day o now'.
Proof.
  intros H0 Hle Hlt.
  assert (Hday : forall x, 0 <= x - start o < 86400000000 ->
            day o x = Z.min ((x - start o) / 6000000 + 1) 5).
  { intros x Hx. unfold day, td_seconds.
    assert (0 <= (x - start o) / 1000000 < 86400).
    { split; [apply Z.div_pos; lia|apply Z.div_lt_upper_bound; lia]. }
    rewrite Z.mod_small by lia.
    rewrite Z.div_div by lia. reflexivity. }
  rewrite (Hday now) by lia. rewrite (Hday now') by lia.
  split; [reflexivity|].
  assert ((now - start o) / 6000000 <= (now' - start o) / 6000000)
    by (apply Z.div_le_mono; lia).
  lia.
Qed.

Lemma day_buckets_witness :
  let o := orch_init 0 in
  day o 13000000 = Z.min ((13000000 - start o) / 6000000 + 1) 5 /\
  day o 13000000 <= day o 29000000.
Proof.
  intros o. apply (day_buckets o 13000000 29000000); cbn; lia.
Defined.

Lemma hours_ok_all (r : Z) : 0 <= r <= 27 -> hours_ok r = true.
Proof.
  intros Hr.
  assert (Hall : forallb hours_ok (map Z.of_nat (seq 0 28)) = true)
    by (vm_compute; reflexivity).
  rewrite forallb_forall in Hall. apply Hall.
  apply in_map_iff. exists (Z.to_nat r). split; [lia|].
  apply in_seq. lia.
Qed.

(** X12: [hours_to_cutoff()] is four times the whole seconds left until second
    27 of the day, as a float: never negative, at most 108, and zero exactly
    from second 27 on.  It is a whole number, which [round(_, 2)] returns
    unchanged. *)
Theorem hours_to_cutoff_values (o : orch) (now : Z) :
  let s := td_seconds (now - start o) in
  hours_to_cutoff o now = F64.of_Z (4 * Z.max 0 (27 - s)) /\
  py_round (hours_to_cutoff o now) 2 = hours_to_cutoff o now /\
  F64.leb (F64.of_Z 0) (hours_to_cutoff o now) = true /\
  F64.leb (hours_to_cutoff o now) (F64.of_Z 108) = true /\
  (hours_to_cutoff o now = F64.of_Z 0 <-> 27 <= s).
Proof.
  intros s. unfold hours_to_cutoff. fold s.
  change (4 * 6 + 3) with 27.
  pose proof (td_seconds_range (now - start o)) as Hs. fold s in Hs.
  set (r := Z.max 0 (27 - s)).
  assert (Hr : 0 <= r <= 27) by (unfold r; lia).
  pose proof (hours_ok_all r Hr) as Hok. unfold hours_ok in Hok.
  repeat (apply andb_true_iff in Hok as [Hok ?]).
  apply bool_decide_eq_true in Hok.
  repeat split; try assumption.
  - match goal with H : bool_decide (py_round _ _ = _) = true |- _ =>
      apply bool_decide_eq_true in H; exact H end.
  - intros E.
    match goal with H : Bool.eqb _ _ = true |- _ =>
      apply Bool.eqb_prop in H; rewrite bool_decide_eq_true_2 in H by exact E;
      symmetry in H; apply Z.eqb_eq in H end.
    unfold r in *. lia.
  - intros Hge. assert (E : r = 0) by (unfold r; lia).
    rewrite E. vm_compute. reflexivity.
Qed.

(** ** The snapshot log *)

Lemma hours_to_cutoff_exact (o : orch) (now : Z) :
  exists k, 0 <= k <= 27 /\ hours_to_cutoff o now = F64.of_Z (4 * k).
Proof.
  pose proof (td_seconds_range (now - start o)) as Hs.
  exists (Z.max 0 (27 - td_seconds (now - start o))). split; [lia|].
  unfold hours_to_cutoff. change (4 * 6 + 3) with 27.
  set (r := Z.max 0 (27 - td_seconds (now - start o))).
  assert (Hr : 0 <= r <= 27) by (unfold r; lia).
  pose proof (hours_ok_all r Hr) as Hok. unfold hours_ok in Hok.
  repeat (apply andb_true_iff in Hok as [Hok ?]).
  apply bool_decide_eq_true in Hok. exact Hok.
Qed.

Lemma idle_percentage_values (avg_comp : float64) :
  In (idle_percentage avg_comp) [F64.dec 35 2; F64.dec 15 2; F64.dec 5 2].
Proof.
  unfold idle_percentage.
  destruct (F64.geb avg_comp (F64.dec 75 2)); [left; reflexivity|].
  destruct (F64.geb avg_comp (F64.dec 5 1)).
  - right; left; reflexivity.
  - right; right; left; reflexivity.
Qed.

(** The line a snapshot appends: the clock fields of that instant and the
    live metrics with the idle percentage just set. *)
Lemma dashboards_dlog (o : orch) (now : Z) (avg_comp : float64) :
  dlog (dashboards_body o now avg_comp)
  = dlog o ++
    [ {| line_ts := now;
         line_day := day o now;
         line_hours_to_cutoff := hours_to_cutoff o now;
         line_metrics :=
           set_agent_idle_percentage (idle_percentage avg_comp) (live o) |} ].
Proof.
  unfold dashboards_body, dict_copy, write_dlog. cbn.
  do 3 f_equal. rewrite !lookup_total_insert_eq. reflexivity.
Qed.

(** X13: Every line of the snapshot log, at every point of a run, holds a day
    between 1 and 5, a whole number of hours to cutoff between 0 and 108,
    an idle percentage among 0.35, 0.15 and 0.05 (never the initial 0.0),
    and metrics the orchestrator did hold, with the capped fields within
    their ceilings. *)
Theorem snapshot_lines_well_formed (ip : interp) (t : Z) (o : orch) :
  steps ip (orch_init t) o -> Forall line_ok (dlog o).
Proof.
  intros Hsteps.
  cut (Forall line_ok (dlog o) /\ reachable (live o)); [tauto|].
  apply (@steps_from ip (fun o => Forall line_ok (dlog o) /\ reachable (live o)))
    with (o := orch_init t); [|exact Hsteps|].
  - clear. intros o o' [Hl Hr] Hstep.
    destruct Hstep as [o evt o' Hp | o now avg].
    + apply pump_body_inv in Hp as (m' & Hred & Hlive & _ & _ & _ & _ & Hd & _).
      rewrite Hd, Hlive. split; [exact Hl|].
      apply (reach_reduce _ _ _ Hr Hred).
    + rewrite dashboards_dlog, dashboards_live.
      assert (Hr' : reachable (set_agent_idle_percentage
                                 (idle_percentage avg) (live o)))
        by (apply reach_idle, Hr).
      split; [|exact Hr'].
      apply Forall_app. split; [exact Hl|].
      constructor; [|constructor]. unfold line_ok. cbn.
      split; [apply day_range|].
      split; [apply hours_to_cutoff_exact|].
      split; [apply idle_percentage_values|].
      split; [apply reachable_capped, Hr'|exact Hr'].
  - split; [constructor|apply reach_init].
Qed.

Lemma snapshot_lines_well_formed_witness :
  Forall line_ok
    (dlog (dashboards_body (orch_init 0) 7000000 (F64.dec 6 1))).
Proof.
  apply (snapshot_lines_well_formed sample_interp 0).
  apply (steps_cons _ _ _ (step_dashboards (orch_init 0) 7000000 (F64.dec 6 1))).
  apply steps_refl.
Defined.

(** X14: Both logs are append-only: whatever the orchestrator does, the event
    log and the snapshot log it has written stay as they are and new lines
    only come after them. *)
Theorem logs_append_only (ip : interp) (o o' : orch) :
  steps ip o o' ->
  (exists l, evlog o' = evlog o ++ l) /\
  (exists l, dlog o' = dlog o ++ l).
Proof.
  induction 1 as [o|a b c Hab _ IH].
  - split; exists []; rewrite app_nil_r; reflexivity.
  - destruct IH as [[l1 E1] [l2 E2]].
    destruct Hab as [o evt o' Hp | o now avg].
    + apply pump_body_inv in Hp as (m' & _ & _ & _ & _ & He & _ & Hd & _).
      rewrite E1, E2, He, Hd, <- app_assoc. eauto.
    + rewrite E1, E2, dashboards_dlog, dashboards_evlog, <- app_assoc. eauto.
Qed.

Lemma logs_append_only_witness :
  let o := dashboards_body
             (after sample_interp (orch_init 0) [mk_event "risk.identified" []])
             7000000 (F64.dec 6 1) in
  let o' := dashboards_body
              (after sample_interp o [mk_event "process.discovered" []])
              8000000 (F64.dec 6 1) in
  evlog o = [mk_event "risk.identified" []] /\
  length (dlog o) = 1%nat /\
  (exists l, evlog o' = evlog o ++ l) /\
  (exists l, dlog o' = dlog o ++ l).
Proof.
  intros o o'. split; [reflexivity|]. split; [reflexivity|].
  apply (logs_append_only sample_interp o o').
  apply (steps_trans _ (after sample_interp o [mk_event "process.discovered" []])).
  - apply after_steps. vm_compute. reflexivity.
  - apply (steps_cons _ _ _ (step_dashboards _ 8000000 (F64.dec 6 1))).
    apply steps_refl.
Defined.

(** ** The idle percentage *)

Lemma geb_upward (x y c : XReal.xreal) :
  XReal.geb x c = true -> XReal.leb x y = true -> XReal.geb y c = true.
Proof. XRealFacts.cmp_cases. Qed.

(** X15: The idle percentage is a step function that never decreases as the mean
    completeness grows. *)
Theorem idle_percentage_monotone (a b : float64) :
  F64.leb a b = true ->
  F64.leb (idle_percentage a) (idle_percentage b) = true.
Proof.
  intros Hab. unfold idle_percentage.
  destruct (F64.geb a (F64.dec 75 2)) eqn:Ha1.
  - assert (Hb1 : F64.geb b (F64.dec 75 2) = true)
      by (apply (geb_upward _ _ _ Ha1 Hab)).
    rewrite Hb1. vm_compute. reflexivity.
  - destruct (F64.geb a (F64.dec 5 1)) eqn:Ha2.
    + assert (Hb2 : F64.geb b (F64.dec 5 1) = true)
        by (apply (geb_upward _ _ _ Ha2 Hab)).
      rewrite Hb2.
      destruct (F64.geb b (F64.dec 75 2)); vm_compute; reflexivity.
    + destruct (F64.geb b (F64.dec 75 2)); [vm_compute; reflexivity|].
      destruct (F64.geb b (F64.dec 5 1)); vm_compute; reflexivity.
Qed.

Lemma idle_percentage_monotone_witness :
  F64.leb (idle_percentage (F64.dec 4 1)) (idle_percentage (F64.dec 8 1))
  = true.
Proof.
  apply (idle_percentage_monotone (F64.dec 4 1) (F64.dec 8 1)).
  vm_compute. reflexivity.
Defined.

(** ** The agents *)

Lemma ltb_below (x y z : XReal.xreal) :
  XReal.ltb x y = true -> XReal.leb y z = true -> XReal.ltb x z = true.
Proof. XRealFacts.cmp_cases. Qed.

Lemma draw_below (r a b : float64) :
  F64.ltb r a = true -> F64.leb a b = true -> F64.ltb r b = true.
Proof. apply ltb_below. Qed.

Ltac themed E L :=
  cbn [andb];
  match goal with
  | |- (if F64.ltb ?r ?c then _ else _) = _ -> _ =>
      destruct (F64.ltb r c) eqn:L;
      [ let H := fresh in intros H; injection H as <- _; reflexivity
      | apply String.eqb_eq in E; subst;
        cbn [String.eqb Ascii.eqb Bool.eqb andb];
        let L5 := fresh in
        destruct (F64.ltb r (F64.dec 5 2)) eqn:L5; [|discriminate];
        exfalso;
        assert (F64.ltb r c = true)
          by (apply (draw_below _ _ _ L5); vm_compute; reflexivity);
        congruence ]
  end.

(** X16: each agent publishes events of one type only: a themed agent
    whose draw fails its own threshold never falls through to a risk, since
    every threshold is at least 0.05. *)
Theorem agent_emits_own_type (name : string) (r conf : float64) (n : Z)
    (et : string) (d : gmap string value) :
  agent_emit name r conf n = Some (et, d) -> et = own_type name.
Proof.
  unfold agent_emit, own_type.
  destruct (String.eqb name "process_mapper") eqn:E1; [themed E1 L|].
  destruct (String.eqb name "fsd_drafter") eqn:E2; [themed E2 L|].
  destruct (String.eqb name "estimator") eqn:E3; [themed E3 L|].
  destruct (String.eqb name "master_data") eqn:E4; [themed E4 L|].
  destruct (String.eqb name "policy_compiler") eqn:E5; [themed E5 L|].
  destruct (String.eqb name "engagement_planner") eqn:E6; [themed E6 L|].
  cbn [andb].
  destruct (F64.ltb r (F64.dec 5 2)); [|discriminate].
  intros H; injection H as <- _. reflexivity.
Qed.

Lemma agent_emits_own_type_witness :
  "process.discovered" = own_type "process_mapper".
Proof.
  apply (agent_emits_own_type "process_mapper" (F64.dec 1 1) (F64.dec 8 1) 3
           "process.discovered"
           (<["process_id" := VStr "proc_0003"]>
              (<["confidence" := VFloat (F64.dec 8 1)]> ∅))).
  vm_compute. reflexivity.
Defined.

(** The seven shapes of an agent's event. *)
Lemma agent_emit_cases (name : string) (r conf : float64) (n : Z)
    (et : string) (d : gmap string value) :
  agent_emit name r conf n = Some (et, d) ->
  (et = "process.discovered" /\
   d = <["process_id" := VStr (String.append "proc_" (fmt_0d 4 n))]>
         (<["confidence" := VFloat conf]> ∅)) \/
  (et = "fsd.section_drafted" /\
   d = <["section" := VStr "requirements"]> ∅) \/
  (et = "estimate.updated" /\
   d = <["total_hours" := VInt (1200 + n * 2)]>
         (<["confidence" :=
              VFloat (py_min (F64.dec 9 1)
                        (F64.add (F64.dec 4 1)
                           (f64_mul (F64.of_Z n) (F64.dec 1 2))))]> ∅)) \/
  (et = "data.quality.score" /\
   d = <["score" :=
           VFloat (py_min (F64.dec 95 2)
                     (F64.add (F64.dec 3 1)
                        (f64_mul (F64.of_Z n) (F64.dec 2 2))))]> ∅) \/
  (et = "requirement.identified" /\
   d = <["id" := VStr (String.append "REQ-" (fmt_0d 4 n))]> ∅) \/
  (et = "plan.updated" /\
   d = <["duration_weeks" := VInt (16 - Z.min 8 (n / 10))]> ∅) \/
  (et = "risk.identified" /\
   d = <["id" := VStr (String.append "R" (fmt_0d 3 n))]>
         (<["impact" := VFloat (F64.dec 3 1)]>
         (<["probability" := VFloat (F64.dec 3 1)]> ∅))).
Proof.
  unfold agent_emit.
  repeat match goal with
  | |- (if ?c then _ else _) = _ -> _ =>
      destruct c;
      [ let H := fresh in
        intros H; injection H as <- <-; tauto | ]
  end.
  discriminate.
Qed.

Lemma cap_9 : F64.leb (F64.dec 9 1) (F64.dec 9 1) = true.
Proof. vm_compute. reflexivity. Qed.

Lemma cap_95 : F64.leb (F64.dec 95 2) (F64.dec 95 2) = true.
Proof. vm_compute. reflexivity. Qed.

Ltac framed :=
  eexists; split; [reflexivity|];
  split; [intros H; exact H|];
  split; [intros H; exact H|];
  intros H; try discriminate H; reflexivity.

(** What the reducer does with an agent's event. *)
Lemma reduce_published (m : Metrics) (evt : event) :
  published evt ->
  exists m', reduce m evt = Ok m' /\
    (score_ok m -> score_ok m') /\
    (estimate_ok m -> estimate_ok m') /\
    (event_type evt = "plan.updated" -> m' = m).
Proof.
  intros (name & r & conf & n & Hn & He).
  destruct evt as [et d stamp]. cbn [event_type data] in *.
  apply agent_emit_cases in He.
  unfold reduce. cbn [event_type data].
  destruct He as [[-> ->]|[[-> ->]|[[-> ->]|[[-> ->]|[[-> ->]|[[-> ->]|[-> ->]]]]]]];
    cbn [String.eqb Ascii.eqb Bool.eqb].
  - framed.
  - framed.
  - rewrite lookup_insert_eq.
    rewrite lookup_insert_ne by discriminate. rewrite lookup_insert_eq.
    eexists. split; [reflexivity|].
    split; [intros H; exact H|]. split; [|intros H; discriminate H].
    intros _. split.
    + right. exists n. split; [lia|reflexivity].
    + eexists. split; [reflexivity|]. apply py_min_le_cap, cap_9.
  - rewrite lookup_insert_eq. cbn [default from_option id].
    unfold py_max. cbn [as_num bind].
    eexists. split; [reflexivity|].
    split; [|split; [intros H; exact H|intros H; discriminate H]].
    unfold score_ok. cbn [data_quality_score set_data_quality_score].
    intros Hs.
    destruct (num_gtb _ _); [|exact Hs].
    apply (py_min_le_cap (F64.dec 95 2)), cap_95.
  - framed.
  - framed.
  - framed.
Qed.

(** X17: the reducer accepts every sequence of events the agents can
    publish: from any metrics the run ends without an exception. *)
Theorem published_never_raise (evts : list event) (m : Metrics) :
  Forall published evts -> exists m', run m evts = Ok m'.
Proof.
  intros H. revert m. induction H as [|evt evts Hp _ IH]; intros m.
  - exists m. reflexivity.
  - destruct (reduce_published m evt Hp) as (m1 & Hr & _).
    destruct (IH m1) as (m' & Hrun).
    exists m'. cbn [run]. rewrite Hr. exact Hrun.
Qed.

Lemma published_never_raise_witness :
  exists m',
    run initial_metrics
      [ {| event_type := "data.quality.score";
           data := <["score" :=
                       VFloat (py_min (F64.dec 95 2)
                                 (F64.add (F64.dec 3 1)
                                    (f64_mul (F64.of_Z 7) (F64.dec 2 2))))]> ∅;
           ts := "" |} ] = Ok m'.
Proof.
  apply published_never_raise.
  repeat constructor.
  exists "master_data", (F64.dec 1 1), (F64.dec 0 1), 7.
  split; [|reflexivity].
  vm_compute. split; [discriminate|reflexivity].
Defined.

Lemma run_published_invariant (P : Metrics -> Prop) :
  (forall m m' evt, published evt -> P m -> reduce m evt = Ok m' -> P m') ->
  forall evts m m',
    Forall published evts -> P m -> run m evts = Ok m' -> P m'.
Proof.
  intros Hstep evts. induction evts as [|evt evts IH]; intros m m' Hp HP Hrun.
  - cbn [run] in Hrun. injection Hrun as <-. exact HP.
  - apply Forall_cons in Hp as [Hevt Hp]. cbn [run] in Hrun.
    destruct (reduce m evt) as [m1|e] eqn:Hr; [|discriminate].
    cbn [bind] in Hrun.
    apply (IH m1 m' Hp); [|exact Hrun].
    apply (Hstep m m1 evt Hevt HP Hr).
Qed.

(** X18: whatever the agents publish, a quality score of at most 0.95
    stays at most 0.95. *)
Theorem quality_score_capped (evts : list event) (m m' : Metrics) :
  Forall published evts -> score_ok m ->
  run m evts = Ok m' -> score_ok m'.
Proof.
  apply (run_published_invariant score_ok).
  intros m0 m1 evt Hp Hs Hr.
  destruct (reduce_published m0 evt Hp) as (m2 & Hr' & Hscore & _).
  rewrite Hr in Hr'. injection Hr' as <-. apply Hscore, Hs.
Qed.

Lemma quality_score_capped_witness :
  score_ok
    (set_data_quality_score
       (NFloat (py_min (F64.dec 95 2)
                  (F64.add (F64.dec 3 1)
                     (f64_mul (F64.of_Z 40) (F64.dec 2 2)))))
       initial_metrics).
Proof.
  apply (quality_score_capped
           [ {| event_type := "data.quality.score";
                data := <["score" :=
                            VFloat (py_min (F64.dec 95 2)
                                      (F64.add (F64.dec 3 1)
                                         (f64_mul (F64.of_Z 40)
                                                  (F64.dec 2 2))))]> ∅;
                ts := "" |} ] initial_metrics).
  - repeat constructor.
    exists "master_data", (F64.dec 1 1), (F64.dec 0 1), 40.
    split; [|reflexivity].
    vm_compute. split; [discriminate|reflexivity].
  - vm_compute. reflexivity.
  - cbn [run]. unfold reduce. cbn [event_type data String.eqb Ascii.eqb Bool.eqb].
    rewrite lookup_insert_eq. vm_compute. reflexivity.
Defined.

(** X19: whatever the agents publish, the estimate total is the initial
    float or an integer [1200 + 2 n], and the estimate confidence is a
    float of at most 0.9. *)
Theorem estimate_stays_ok (evts : list event) (m m' : Metrics) :
  Forall published evts -> estimate_ok m ->
  run m evts = Ok m' -> estimate_ok m'.
Proof.
  apply (run_published_invariant estimate_ok).
  intros m0 m1 evt Hp Hs Hr.
  destruct (reduce_published m0 evt Hp) as (m2 & Hr' & _ & Hest & _).
  rewrite Hr in Hr'. injection Hr' as <-. apply Hest, Hs.
Qed.

Lemma estimate_stays_ok_witness :
  estimate_ok
    (set_estimate_confidence
       (VFloat (py_min (F64.dec 9 1)
                  (F64.add (F64.dec 4 1)
                     (f64_mul (F64.of_Z 3) (F64.dec 1 2)))))
       (set_estimate_total (VInt 1206) initial_metrics)).
Proof.
  apply (estimate_stays_ok
           [ {| event_type := "estimate.updated";
                data := <["total_hours" := VInt (1200 + 3 * 2)]>
                        (<["confidence" :=
                             VFloat (py_min (F64.dec 9 1)
                                       (F64.add (F64.dec 4 1)
                                          (f64_mul (F64.of_Z 3)
                                                   (F64.dec 1 2))))]> ∅);
                ts := "" |} ] initial_metrics).
  - repeat constructor.
    exists "estimator", (F64.dec 1 1), (F64.dec 0 1), 3.
    split; [|reflexivity].
    vm_compute. split; [discriminate|reflexivity].
  - split; [left; reflexivity|].
    eexists. split; [reflexivity|]. vm_compute. reflexivity.
  - cbn [run]. unfold reduce. cbn [event_type data String.eqb Ascii.eqb Bool.eqb].
    rewrite lookup_insert_eq.
    rewrite lookup_insert_ne by discriminate. rewrite lookup_insert_eq.
    reflexivity.
Defined.

(** X20: the events of the engagement planner leave the metrics as they
    are: the orchestrator has no branch for plan.updated. *)
Theorem planner_events_ignored (r conf : float64) (n : Z) (et stamp : string)
    (d : gmap string value) (m : Metrics) :
  agent_emit "engagement_planner" r conf n = Some (et, d) ->
  reduce m {| event_type := et; data := d; ts := stamp |} = Ok m.
Proof.
  unfold agent_emit. cbn [String.eqb Ascii.eqb Bool.eqb andb].
  destruct (F64.ltb r (F64.dec 1 1)) eqn:L.
  - intros H. injection H as <- <-. reflexivity.
  - destruct (F64.ltb r (F64.dec 5 2)) eqn:L5; [|discriminate].
    exfalso.
    assert (F64.ltb r (F64.dec 1 1) = true)
      by (apply (draw_below _ _ _ L5); vm_compute; reflexivity).
    congruence.
Qed.

Lemma planner_events_ignored_witness :
  reduce initial_metrics
    {| event_type := "plan.updated";
       data := <["duration_weeks" := VInt (16 - Z.min 8 (25 / 10))]> ∅;
       ts := "" |} = Ok initial_metrics.
Proof.
  apply (planner_events_ignored (F64.dec 5 2) (F64.dec 0 1) 25).
  vm_compute. reflexivity.
Defined.

(** X21: the completeness an agent stores lies between 0.0 and 0.99 and is
    never a NaN, whatever [pow] returned. *)
Theorem completeness_clamped (p c : float64) :
  completeness_of p = Some c ->
  F64.leb (F64.dec 0 1) c = true /\ F64.leb c (F64.dec 99 2) = true.
Proof.
  unfold completeness_of.
  destruct (is_zero _); [discriminate|].
  intros H. injection H as <-. unfold py_max_float.
  destruct (XReal.gtb _ _) eqn:G.
  - split.
    + apply XRealFacts.gtb_leb in G. exact G.
    + apply py_min_le_cap. vm_compute. reflexivity.
  - split; vm_compute; reflexivity.
Qed.

Lemma completeness_clamped_witness :
  F64.leb (F64.dec 0 1) (F64.dec 5 1) = true /\
  F64.leb (F64.dec 5 1) (F64.dec 99 2) = true.
Proof.
  apply (completeness_clamped (F64.of_Z 1)).
  vm_compute. reflexivity.
Defined.

(** *** The identifiers *)

Lemma digit_of_digit_char (d : Z) :
  0 <= d <= 9 -> digit_of_char (digit_char d) = Some d.
Proof.
  intros H.
  assert (Hd : d = 0 \/ d = 1 \/ d = 2 \/ d = 3 \/ d = 4 \/ d = 5 \/ d = 6 \/
               d = 7 \/ d = 8 \/ d = 9) by lia.
  repeat (destruct Hd as [->|Hd]; [reflexivity|]). subst d. reflexivity.
Qed.

Lemma digits_rev_spec (fuel : nat) :
  forall n, 0 <= n < 2 ^ Z.of_nat fuel ->
    digits_value (digits_rev fuel n) = n /\
    Forall (fun d => 0 <= d <= 9) (digits_rev fuel n).
Proof.
  induction fuel as [|fuel IH]; intros n Hn.
  - cbn in Hn. cbn [digits_rev digits_value]. split; [lia|constructor].
  - rewrite Nat2Z.inj_succ, Z.pow_succ_r in Hn by lia.
    pose proof (Z.div_mod n 10 ltac:(lia)) as Hdm.
    pose proof (Z.mod_pos_bound n 10 ltac:(lia)) as Hmod.
    cbn [digits_rev]. destruct (Z.eqb_spec (n / 10) 0) as [E|E].
    + cbn [digits_value]. split; [lia|]. repeat constructor; lia.
    + destruct (IH (n / 10)) as [Hv Hf].
      { split; [apply Z.div_pos; lia|].
        apply Z.div_lt_upper_bound; lia. }
      cbn [digits_value]. rewrite Hv. split; [lia|].
      constructor; [lia|exact Hf].
Qed.

Lemma parse_digits_app (l : list ascii) (c : ascii) :
  forall acc,
    parse_digits acc (l ++ [c]) =
    match parse_digits acc l with
    | Some a =>
        match digit_of_char c with
        | Some d => Some (a * 10 + d)
        | None => None
        end
    | None => None
    end.
Proof.
  induction l as [|x l IH]; intros acc; cbn [app parse_digits].
  - destruct (digit_of_char c); reflexivity.
  - destruct (digit_of_char x); [apply IH|reflexivity].
Qed.

Lemma parse_rev_digits (ds : list Z) :
  Forall (fun d => 0 <= d <= 9) ds ->
  parse_digits 0 (map digit_char (rev ds)) = Some (digits_value ds).
Proof.
  induction 1 as [|d ds Hd _ IH]; [reflexivity|].
  cbn [rev]. rewrite map_app. cbn [map].
  rewrite parse_digits_app, IH, (digit_of_digit_char d Hd).
  cbn [digits_value]. f_equal. lia.
Qed.

Lemma parse_padding (k : nat) (cs : list ascii) :
  parse_digits 0 (map digit_char (repeat 0 k) ++ cs) = parse_digits 0 cs.
Proof.
  induction k as [|k IH]; [reflexivity|].
  cbn [repeat map app parse_digits].
  rewrite (digit_of_digit_char 0) by lia. exact IH.
Qed.

(** Reading back what [fmt_0d] wrote. *)
Lemma parse_fmt_0d (w : nat) (n : Z) :
  0 <= n -> parse_decimal (fmt_0d w n) = Some n.
Proof.
  intros Hn. unfold fmt_0d, parse_decimal.
  destruct (Z.ltb_spec n 0) as [?|_]; [lia|].
  rewrite list_ascii_of_string_of_list_ascii.
  unfold pad_zeros. rewrite map_app, parse_padding.
  unfold digits.
  destruct (digits_rev_spec (S (Z.to_nat (Z.log2 n))) n) as [Hv Hf].
  { split; [exact Hn|].
    rewrite Nat2Z.inj_succ, Z2Nat.id by apply Z.log2_nonneg.
    destruct (Z.eq_dec n 0) as [->|Hnz]; [reflexivity|].
    apply Z.log2_spec. lia. }
  rewrite (parse_rev_digits _ Hf), Hv. reflexivity.
Qed.

Lemma fmt_0d_inj (w : nat) (n1 n2 : Z) :
  0 <= n1 -> 0 <= n2 -> fmt_0d w n1 = fmt_0d w n2 -> n1 = n2.
Proof.
  intros H1 H2 E.
  pose proof (parse_fmt_0d w n1 H1) as P1.
  rewrite E, (parse_fmt_0d w n2 H2) in P1. congruence.
Qed.

Ltac same_id w H :=
  match type of H with
  | <[?k := _]> _ = <[?k := _]> _ =>
      apply (f_equal (fun d => d !! k)) in H;
      rewrite !lookup_insert_eq in H;
      injection H as H;
      apply (fmt_0d_inj w); assumption
  end.

(** X22: the identifier in an event's payload determines the counter it
    was built from: two events with an identifier and the same payload were
    published at the same count. *)
Theorem ids_determine_counter (name1 name2 : string)
    (r1 r2 c1 c2 : float64) (n1 n2 : Z) (et : string)
    (d : gmap string value) :
  0 <= n1 -> 0 <= n2 -> In et id_types ->
  agent_emit name1 r1 c1 n1 = Some (et, d) ->
  agent_emit name2 r2 c2 n2 = Some (et, d) ->
  n1 = n2.
Proof.
  intros H1 H2 Hin E1 E2.
  apply agent_emit_cases in E1. apply agent_emit_cases in E2.
  destruct E1 as [[-> D1]|[[-> D1]|[[-> D1]|[[-> D1]|[[-> D1]|[[-> D1]|[-> D1]]]]]]];
    try (exfalso; cbn in Hin;
         repeat (destruct Hin as [Hin|Hin]; [discriminate Hin|]); exact Hin);
    destruct E2 as [[E D2]|[[E D2]|[[E D2]|[[E D2]|[[E D2]|[[E D2]|[E D2]]]]]]];
    try discriminate E; rewrite D1 in D2.
  - same_id 4%nat D2.
  - same_id 4%nat D2.
  - same_id 3%nat D2.
Qed.

Lemma ids_determine_counter_witness : 12 = 12.
Proof.
  apply (ids_determine_counter "policy_compiler" "policy_compiler"
           (F64.dec 1 1) (F64.dec 12 2) (F64.dec 0 1) (F64.dec 0 1) 12 12
           "requirement.identified"
           (<["id" := VStr "REQ-0012"]> ∅)).
  - lia.
  - lia.
  - cbn. tauto.
  - vm_compute. reflexivity.
  - vm_compute. reflexivity.
Defined.
